(** * react-big-calendar, drag-and-drop addon: a shallow embedding

    The development follows three source files of the repository:

    - [src/addons/dragAndDrop/backgroundWrapper.js], the drop-target adapter
      wrapped around every background cell ([getEventTimes], [drop],
      [hover], [componentWillReceiveProps]);
    - [unnamed/part_001], a later revision of that same file, in which
      [hover] reports phase ['hover'] and has a branch for moves, which
      calls a function that [hover] does not bind;
    - the second document of [unnamed/part_000], the component
      [DateContentRowWrapper] that owns the levels of one row and the
      handlers [handleSegmentDrag], [handleSegmentHover],
      [handleSegmentDrop] and [handleBackgroundCellHoverExit]; and its
      first document, the component [Calendar], with the handlers of
      views, navigation, selection and scrolling.

    Conventions of the embedding.

    - A [Date] is its time value, an integer number of milliseconds ([Z]).
      The range limit of JavaScript dates (8.64e15 ms) is not modelled.
    - A property that is absent from a JavaScript object (reading it gives
      [undefined]) is [None]; [===] on such values is equality of options.
    - Objects are records of the properties that the handlers read or
      write; a spread with an override, such as [{ ...seg, isHidden: false }],
      is the record with that field replaced.
    - Numbers that are weights are exact rationals ([Q]); the only
      arithmetic on them is the subtraction of 0.5.
    - [this.state], [window.RBC_DRAG_POS] and [window.RBC_RESIZE_VALUE] are
      fields of one record [World] that every handler takes and returns.
      A handler also returns the list of its effects on the outside, in
      order: the [setState] calls it issued and the context callbacks it
      invoked.
    - A handler that can throw a [TypeError] returns an [option]; [None] is
      the exception. Every such throw comes before the first write of its
      handler, so no partial update is lost in [None]. The one throw that
      comes after a write, the [ReferenceError] of [hover] in
      [unnamed/part_001], is the last effect of the call, beside the world
      as the write left it.
    - Functions of modules that are not among the sources ([helpers.merge],
      [dates.diff], [withLevels], [moveDate], [transform] and [mapValues]
      of lodash, the accessors) and of the platform
      ([Date.prototype.toString], [cuid], [Array.prototype.sort], the
      reading and writing of the properties of an object, [Object.keys])
      are section variables. *)

From Stdlib Require Import ZArith QArith.
From stdpp Require Import base option list strings pretty.

Open Scope Z_scope.

(** ** date-fns *)

Definition Instant := Z.

Module DateFns.

Definition MILLISECONDS_IN_DAY : Z := 86400000.

(** [addMilliseconds(date, amount)]: [new Date(date.getTime() + amount)]. *)
Definition addMilliseconds (date : Instant) (amount : Z) : Instant :=
  date + amount.

(** [addDays(date, amount)] moves the calendar day by [amount]; in UTC,
    where no day is shortened or lengthened, that is [amount] days of
    86400000 ms. *)
Definition addDays (date : Instant) (amount : Z) : Instant :=
  date + amount * MILLISECONDS_IN_DAY.

(** Days from 1970-01-01 to the civil date [y]-[m]-[d] of the proleptic
    Gregorian calendar, and the instant of its midnight in UTC
    ([Date.UTC(y, m - 1, d)]). *)
Definition days_from_civil (y m d : Z) : Z :=
  let y' := if m <=? 2 then y - 1 else y in
  let era := y' `div` 400 in
  let yoe := y' - era * 400 in
  let mp := if 2 <? m then m - 3 else m + 9 in
  let doy := (153 * mp + 2) `div` 5 + d - 1 in
  let doe := yoe * 365 + yoe `div` 4 - yoe `div` 100 + doy in
  era * 146097 + doe - 719468.

Definition utc (y m d : Z) : Instant :=
  days_from_civil y m d * MILLISECONDS_IN_DAY.

End DateFns.

(** ** Data model *)

(** An event of the host. The handlers read and write the properties
    below; [ev_ref] is the identity of the object, which is what [===]
    compares, and [ev_title] stands for the properties that are only
    copied. Every event is taken to have a start, an end and a weight. *)
Record Event := mkEvent {
  ev_ref : nat;
  ev_id : option string;
  ev_eventTemplateId : option string;
  ev_locked : option bool;
  ev_type : option string;
  ev_start : Instant;
  ev_end : Instant;
  ev_weight : Q;
  ev_title : string;
}.

(** [a === b] on two event objects. *)
Definition same_object (a b : Event) : bool := bool_decide (ev_ref a = ev_ref b).

(** The item carried by a drag: [{ type, data, position?: { span } }]. *)
Record ItemPosition := mkItemPosition { ip_span : Z }.

Record Item := mkItem {
  item_type : option string;
  item_data : Event;
  item_position : option ItemPosition;
}.

(** The drag-and-drop monitor, as far as the drop target reads it. *)
Record Monitor := mkMonitor {
  getItemType : string;
  getItem : Item;
}.

(** A position in a row: [{ level, left, span }]. *)
Record Position := mkPosition {
  pos_level : option nat;
  pos_left : option Z;
  pos_span : option Z;
}.

(** A segment: [{ event, left, right, span, level, isHidden }]. The swap of
    [handleSegmentHover] can leave objects with only some of these
    properties in a row, hence the options. *)
Record Segment := mkSegment {
  seg_event : option Event;
  seg_left : option Z;
  seg_right : option Z;
  seg_span : option Z;
  seg_level : option nat;
  seg_isHidden : option bool;
}.

(** The object [{}]. *)
Definition no_props : Segment := mkSegment None None None None None None.

(** [{ ...s, isHidden: b }] and [{ ...s, level: l }]. *)
Definition with_isHidden (b : bool) (s : Segment) : Segment :=
  mkSegment (seg_event s) (seg_left s) (seg_right s) (seg_span s)
            (seg_level s) (Some b).

Definition with_level (l : option nat) (s : Segment) : Segment :=
  mkSegment (seg_event s) (seg_left s) (seg_right s) (seg_span s)
            l (seg_isHidden s).

Abbreviation Levels := (list (list Segment)).

(** [this.state] of [DateContentRowWrapper]. [insertedOutsideEvent] is
    absent at first, which is falsy. Of the result of [withLevels], which is
    spread into the state, only [levels] is read by the handlers. *)
Record State := mkState {
  st_drag : option Position;
  st_hover : option Position;
  st_hoverData : option Event;
  st_insertedOutsideEvent : bool;
  st_levels : Levels;
}.

(** Everything the handlers can read and write: the two globals on
    [window], the state of the row component, the number of calls made so
    far to [cuid], and the number of objects allocated so far, which is the
    reference the next new object gets. *)
Record World := mkWorld {
  RBC_DRAG_POS : option Position;
  RBC_RESIZE_VALUE : option Instant;
  state : State;
  cuid_calls : nat;
  allocated : nat;
}.

Definition set_RBC_DRAG_POS (p : option Position) (w : World) : World :=
  mkWorld p (RBC_RESIZE_VALUE w) (state w) (cuid_calls w) (allocated w).

Definition set_RBC_RESIZE_VALUE (v : option Instant) (w : World) : World :=
  mkWorld (RBC_DRAG_POS w) v (state w) (cuid_calls w) (allocated w).

Definition set_state (s : State) (w : World) : World :=
  mkWorld (RBC_DRAG_POS w) (RBC_RESIZE_VALUE w) s (cuid_calls w) (allocated w).

(** What a handler does to the outside, in order. [onEventDrop] takes the
    phase first in [unnamed/part_001] and the payload alone in
    [backgroundWrapper.js], where the phase is [None]. [ReferenceError name]
    is the end of a call that reads the identifier [name], which nothing
    binds: the call throws there and nothing follows. *)
Inductive Effect :=
| setState
| ReferenceError (name : string)
| onEventReorder (dragData : option Event) (hoverData : Event)
                 (idxa idxb : option nat) (events : list (option Event))
| onOutsideEventDrop (event : Event) (start : Instant)
| onEventDrop (phase : option string) (event : Event) (start end_ : Instant)
| onEventResize (phase : string) (event : Event) (start end_ : Instant)
| onBackgroundCellEnter (value : Instant) (item : Item).

(** ** Platform functions used to run the model on examples *)

(** A stable insertion sort, one admissible [Array.prototype.sort]. *)
Fixpoint insert_by (cmp : Event → Event → Z) (x : Event) (l : list Event) : list Event :=
  match l with
  | [] => [x]
  | y :: l' => if cmp x y <? 0 then x :: y :: l' else y :: insert_by cmp x l'
  end.

Definition insertion_sort (cmp : Event → Event → Z) (l : list Event) : list Event :=
  foldr (insert_by cmp) [] l.

(** A [toString] for dates: the whole seconds of the instant, in decimal.
    Like the platform's, it drops the milliseconds. *)
Definition seconds_string (d : Instant) : string := pretty (d `div` 1000).

(** An identifier generator: the call number, in decimal, after a [c]. *)
Definition counter_cuid (n : nat) : string := "c" +:+ pretty n.

(** ** DateContentRowWrapper (second document of unnamed/part_000) *)

Module DateContentRowWrapper.
Section Component.

(** [withLevels({ ...this.props, events })] as a function of [events], the
    other props being those of the component; the module
    [utils/eventLevels] is not among the sources. *)
Variable withLevels : list Event → Levels.
(** The [n]-th identifier that [cuid()] hands out. *)
Variable cuid : nat → string.
(** [events.sort(compare)]. *)
Variable Array_sort : (Event → Event → Z) → list Event → list Event.
(** Whether the context supplies [onEventReorder]. *)
Variable has_onEventReorder : bool.

(** [(a, b) => a.left === b.left && a.level === b.level]. *)
Definition _posEq (a b : Position) : bool :=
  bool_decide (pos_left a = pos_left b) && bool_decide (pos_level a = pos_level b).

(** [window.RBC_DRAG_POS = drag]. *)
Definition handleSegmentDrag (drag : option Position) (w : World)
  : World * list Effect :=
  (set_RBC_DRAG_POS drag w, []).

(** The [setState] of this handler is commented out in the source; what is
    left computes [withLevels(this.props)] and drops it. *)
Definition handleBackgroundCellHoverExit (events : list Event) (w : World)
  : World * list Effect :=
  let props := withLevels events in
  (w, []).

(** The comparator given to [events.sort]. *)
Definition byWeight (x y : Event) : Z :=
  if Qlt_le_dec (ev_weight x) (ev_weight y) then -1 else 1.

(** The provisional event built on the first hover of an outside drag:
    [{ ...dragDataRest, id: cuid(), eventTemplateId, locked: false,
       start: hoverData.start, end: addDays(hoverData.start, span),
       weight: hoverData.weight - 0.5 }], where [eventTemplateId] is the
    [id] of [dragData] and [dragDataRest] is [dragData] without [id] and
    [eventTemplateId]. *)
Definition provisional (dragData hoverData : Event) (span : Z) (w : World) : Event :=
  {| ev_ref := allocated w;
     ev_id := Some (cuid (cuid_calls w));
     ev_eventTemplateId := ev_id dragData;
     ev_locked := Some false;
     ev_type := ev_type dragData;
     ev_start := ev_start hoverData;
     ev_end := DateFns.addDays (ev_start hoverData) span;
     ev_weight := (ev_weight hoverData - (1 # 2))%Q;
     ev_title := ev_title dragData |}.

(** [({ event }) => event === data]. *)
Definition holds (data : Event) (seg : Segment) : bool :=
  match seg_event seg with
  | Some e => same_object e data
  | None => false
  end.

(** The loop over [levels.levels] that stops at the first level in which
    [find] succeeds. *)
Fixpoint findDragData (data : Event) (lvls : Levels) : option Segment :=
  match lvls with
  | [] => None
  | lvl :: rest =>
      match List.find (holds data) lvl with
      | Some seg => Some seg
      | None => findDragData data rest
      end
  end.

(** One entry of [cellSegs]: [idx] is [None] for the [-1] of [findIndex],
    and [cs_seg] holds the other properties of the entry. *)
Record CellSeg := mkCellSeg { idx : option nat; cs_seg : Segment }.

(** [propEq('left', dleft)]. *)
Definition at_left (dleft : option Z) (seg : Segment) : Prop :=
  seg_left seg = dleft.

#[global] Instance at_left_dec dleft seg : Decision (at_left dleft seg).
Proof. unfold at_left. apply _. Defined.

(** The callback of [levels.map] that builds [cellSegs]: [{ idx }] when
    [findIndex] finds no segment, [{ ...seg, idx, isHidden: false }] when it
    finds [seg]. *)
Definition cellSeg (dleft : option Z) (segs : list Segment) : CellSeg :=
  match list_find (at_left dleft) segs with
  | None => mkCellSeg None no_props
  | Some (i, seg) => mkCellSeg (Some i) (with_isHidden false seg)
  end.

(** The body of [cellSegs.forEach], for the row [i]: nothing when [idx] is
    [-1], else [seg.level = i; lvl[idx] = seg]. Each round writes to its own
    row, so that the loop is a map over the rows. *)
Definition writeBack (cellSegs : list CellSeg) (i : nat) (lvl : list Segment)
  : list Segment :=
  match cellSegs !! i with
  | Some (mkCellSeg (Some k) seg) => <[k := with_level (Some i) seg]> lvl
  | _ => lvl
  end.

(** The swap of the two entries of [cellSegs] and its write-back into
    [levels]:
    [dseg.isHidden = true;
     cellSegs[dlevel] = { idx: didx, ...hseg };
     cellSegs[hlevel] = { idx: hidx, ...dseg, level: hlevel }].
    [None] when [cellSegs[dlevel]] or [cellSegs[hlevel]] is [undefined],
    which the destructuring cannot take. *)
Definition swapSegments (drag hover : Position) (levels : Levels) : option Levels :=
  let dleft := pos_left drag in
  let cellSegs := cellSeg dleft <$> levels in
  dlevel ← pos_level drag;
  d ← cellSegs !! dlevel;
  hlevel ← pos_level hover;
  h ← cellSegs !! hlevel;
  let dseg := with_isHidden true (cs_seg d) in
  let hseg := cs_seg h in
  let cellSegs := <[dlevel := mkCellSeg (idx d) hseg]> cellSegs in
  let cellSegs :=
    <[hlevel := mkCellSeg (idx h) (with_level (Some hlevel) dseg)]> cellSegs in
  Some (imap (writeBack cellSegs) levels).

(** [events] is [this.props.events]. The first branch ends in
    [setState(prev => ({ ...levels, drag: dragPos, insertedOutsideEvent: true }))],
    the second in [window.RBC_DRAG_POS = { ...drag, level: hlevel }] and
    [setState({ levels, hover, hoverData })], where [levels] is the array of
    the state, written in place. *)
Definition handleSegmentHover (events : list Event)
    (hover : Position) (hoverData : option Event) (dragEvent : Item)
    (w : World) : option (World * list Effect) :=
  let st := state w in
  if negb (st_insertedOutsideEvent st)
     && bool_decide (item_type dragEvent = Some "outsideEvent")
  then
    position ← item_position dragEvent;
    let span := ip_span position in
    let dragPos :=
      mkPosition ((λ l, l + 1)%nat <$> pos_level hover) (pos_left hover) (Some span) in
    hd ← hoverData;
    let data := provisional (item_data dragEvent) hd span w in
    let events := Array_sort byWeight (events ++ [data]) in
    let levels := withLevels events in
    nextDragData ← findDragData data levels;
    let dragPos :=
      mkPosition (seg_level nextDragData) (pos_left dragPos) (pos_span dragPos) in
    Some (mkWorld (RBC_DRAG_POS w) (RBC_RESIZE_VALUE w)
            (mkState (Some dragPos) (st_hover st) (st_hoverData st) true levels)
            (S (cuid_calls w)) (S (allocated w)),
          [setState])
  else
    drag ← RBC_DRAG_POS w;
    if _posEq drag hover then Some (w, [])
    else
      levels ← swapSegments drag hover (st_levels st);
      let drag' := mkPosition (pos_level hover) (pos_left drag) (pos_span drag) in
      Some (set_RBC_DRAG_POS (Some drag')
              (set_state
                 (mkState (st_drag st) (Some hover) hoverData
                          (st_insertedOutsideEvent st) levels) w),
            [setState]).

(** [({ left }) => drag.left === left]. *)
Definition at_drag_left (drag : Position) (seg : Segment) : bool :=
  bool_decide (pos_left drag = seg_left seg).

(** The [reduce] that collects, row by row, the event of the segment at
    the column of the drag. *)
Definition eventsAt (drag : Position) (levels : Levels) : list (option Event) :=
  foldl (λ acc row,
           match List.find (at_drag_left drag) row with
           | Some seg => acc ++ [seg_event seg]
           | None => acc
           end) [] levels.

(** [drop] is the argument [{ level, left }]. Without [hoverData] the
    handler returns at once; without a segment at the drag position it only
    calls [setState({ drag: null, hover: null, hoverData: null })]; else it
    calls [onEventReorder && onEventReorder(dragData, hoverData, drag.level,
    level, events)], empties [window.RBC_DRAG_POS] and calls
    [setState({ hover: null, hoverData: null })]. *)
Definition handleSegmentDrop (drop : Position) (w : World)
  : option (World * list Effect) :=
  let st := state w in
  match st_hoverData st with
  | None => Some (w, [])
  | Some hoverData =>
      drag ← RBC_DRAG_POS w;
      dlevel ← pos_level drag;
      row ← st_levels st !! dlevel;
      match List.find (at_drag_left drag) row with
      | None =>
          Some (set_state
                  (mkState None None None (st_insertedOutsideEvent st) (st_levels st)) w,
                [setState])
      | Some dragSeg =>
          let dragData := seg_event dragSeg in
          let events := eventsAt drag (st_levels st) in
          let calls :=
            if has_onEventReorder
            then [onEventReorder dragData hoverData (pos_level drag) (pos_level drop) events]
            else [] in
          Some (set_RBC_DRAG_POS None
                  (set_state
                     (mkState (st_drag st) None None
                              (st_insertedOutsideEvent st) (st_levels st)) w),
                calls ++ [setState])
      end
  end.

End Component.
End DateContentRowWrapper.

(** ** The drop-target adapter *)

(** Modelled from the spec: the module [./itemTypes] is not among the
    sources. The items of the drag-and-drop subsystem have type ["event"]
    or ["resize"], the two types the drop target is registered for. *)
Module ItemTypes.
Definition EVENT : string := "event".
Definition RESIZE : string := "resize".
End ItemTypes.

(** Modelled from the spec: the module [utils/accessors] is not among the
    sources. An accessor is a field name or a function from the event to
    the value; either way [get(event, accessor)] is that function applied
    to the event. *)
Definition get (data : Event) (field : Event → Instant) : Instant := field data.

(** The result [{ start, end }] of [getEventTimes]. *)
Record EventTimes := mkEventTimes { times_start : Instant; times_end : Instant }.

(** *** src/addons/dragAndDrop/backgroundWrapper.js *)

Module BackgroundWrapper.
Section Component.

(** [helpers.merge(date, time)] and [dates.diff(a, b)], of modules that
    are not among the sources. *)
Variable merge : Instant → Instant → Instant.
Variable diff : Instant → Instant → Z.
(** [Date.prototype.toString]. *)
Variable toString : Instant → string.
(** [startAccessor], [endAccessor] and [onBackgroundCellHoverExit] of the
    context. *)
Variable startAccessor endAccessor : Event → Instant.
Variable onBackgroundCellHoverExit : World → World * list Effect.

Definition getEventTimes (start end_ dropDate : Instant) (type : string)
  : EventTimes :=
  let duration := diff start end_ in
  let nextStart :=
    if bool_decide (type = "dateCellWrapper") then merge dropDate start
    else dropDate in
  let nextEnd := DateFns.addMilliseconds nextStart duration in
  {| times_start := nextStart; times_end := nextEnd |}.

(** Entering a cell does nothing (the call is commented out); leaving it
    calls [onBackgroundCellHoverExit()]. *)
Definition componentWillReceiveProps (wasOver isOver : bool) (w : World)
  : World * list Effect :=
  if negb isOver && wasOver then onBackgroundCellHoverExit w else (w, []).

Definition drop (type : string) (value : Instant) (monitor : Monitor) (w : World)
  : World * list Effect :=
  let itemType := getItemType monitor in
  let event := item_data (getItem monitor) in
  let eventType := item_type (getItem monitor) in
  let start := get event startAccessor in
  let end_ := get event endAccessor in
  if bool_decide (itemType = ItemTypes.EVENT) then
    if bool_decide (eventType = Some "outsideEvent") then
      (w, [onOutsideEventDrop event value])
    else
      let times := getEventTimes start end_ value type in
      (w, [onEventDrop None event (times_start times) (times_end times)])
  else if bool_decide (itemType = "resize") then
    if bool_decide (eventType = Some "resizeL") then
      (w, [onEventResize "drop" event value end_])
    else if bool_decide (eventType = Some "resizeR") then
      (w, [onEventResize "drop" event start value])
    else (w, [])
  else (w, []).

(** The test that opens [hover]: the global holds a date whose string is
    that of [value]. *)
Definition sameValue (value : Instant) (w : World) : bool :=
  match RBC_RESIZE_VALUE w with
  | Some v => bool_decide (toString v = toString value)
  | None => false
  end.

Definition hover (type : string) (value : Instant) (monitor : Monitor) (w : World)
  : World * list Effect :=
  if sameValue value w then (w, [])
  else
    let itemType := getItemType monitor in
    let event := item_data (getItem monitor) in
    let eventType := item_type (getItem monitor) in
    let start := get event startAccessor in
    let end_ := get event endAccessor in
    let w := set_RBC_RESIZE_VALUE (Some value) w in
    if bool_decide (itemType = ItemTypes.RESIZE) then
      if bool_decide (eventType = Some "resizeL") then
        (w, [onEventResize "drop" event value end_])
      else if bool_decide (eventType = Some "resizeR") then
        (w, [onEventResize "drop" event start value])
      else (w, [])
    else (w, []).

End Component.
End BackgroundWrapper.

(** *** unnamed/part_001, the later revision of the same file *)

Module BackgroundWrapper2.
Section Component.

Variable merge : Instant → Instant → Instant.
Variable diff : Instant → Instant → Z.
Variable toString : Instant → string.
Variable startAccessor endAccessor : Event → Instant.
Variable onBackgroundCellHoverExit : World → World * list Effect.

Definition getEventTimes (start end_ dropDate : Instant) (type : string)
  : EventTimes :=
  let duration := diff start end_ in
  let nextStart :=
    if bool_decide (type = "dateCellWrapper") then merge dropDate start
    else dropDate in
  let nextEnd := DateFns.addMilliseconds nextStart duration in
  {| times_start := nextStart; times_end := nextEnd |}.

(** Entering a cell calls [onBackgroundCellEnter(value, item)]; leaving it
    calls [onBackgroundCellHoverExit(value, item)]. *)
Definition componentWillReceiveProps (wasOver isOver : bool)
    (value : Instant) (monitor : Monitor) (w : World) : World * list Effect :=
  let '(w, entered) :=
    if isOver && negb wasOver
    then (w, [onBackgroundCellEnter value (getItem monitor)])
    else (w, []) in
  if negb isOver && wasOver
  then let '(w, exited) := onBackgroundCellHoverExit w in (w, entered ++ exited)
  else (w, entered).

Definition drop (type : string) (value : Instant) (monitor : Monitor) (w : World)
  : World * list Effect :=
  let itemType := getItemType monitor in
  let event := item_data (getItem monitor) in
  let eventType := item_type (getItem monitor) in
  let start := get event startAccessor in
  let end_ := get event endAccessor in
  if bool_decide (itemType = ItemTypes.EVENT) then
    if bool_decide (ev_type event = Some "outsideEvent") then
      (w, [onOutsideEventDrop event value])
    else
      let times := getEventTimes start end_ value type in
      (w, [onEventDrop (Some "drop") event (times_start times) (times_end times)])
  else if bool_decide (itemType = "resize") then
    if bool_decide (eventType = Some "resizeL") then
      (w, [onEventResize "drop" event value end_])
    else if bool_decide (eventType = Some "resizeR") then
      (w, [onEventResize "drop" event start value])
    else (w, [])
  else (w, []).

Definition sameValue (value : Instant) (w : World) : bool :=
  match RBC_RESIZE_VALUE w with
  | Some v => bool_decide (toString v = toString value)
  | None => false
  end.

(** [hover] takes [onEventResize], [startAccessor] and [endAccessor] from
    the context and no more. Its last branch calls
    [onEventDrop('hover', { event, ...getEventTimes(start, end, value, type) })],
    where [onEventDrop] is bound neither in [hover] nor in the module: the
    call throws a [ReferenceError] when it looks the function up, before it
    comes to the arguments, and after [window.RBC_RESIZE_VALUE] was
    written. *)
Definition hover (type : string) (value : Instant) (monitor : Monitor) (w : World)
  : World * list Effect :=
  if sameValue value w then (w, [])
  else
    let itemType := getItemType monitor in
    let event := item_data (getItem monitor) in
    let eventType := item_type (getItem monitor) in
    let start := get event startAccessor in
    let end_ := get event endAccessor in
    let w := set_RBC_RESIZE_VALUE (Some value) w in
    if bool_decide (itemType = ItemTypes.RESIZE) then
      if bool_decide (eventType = Some "resizeL") then
        (w, [onEventResize "hover" event value end_])
      else if bool_decide (eventType = Some "resizeR") then
        (w, [onEventResize "hover" event start value])
      else (w, [])
    else if bool_decide (itemType = ItemTypes.EVENT)
            && negb (bool_decide (eventType = Some "outsideEvent")) then
      (w, [ReferenceError "onEventDrop"])
    else (w, []).

End Component.
End BackgroundWrapper2.

(** The call that proposes the new edge of a resized event: the start for
    the left edge, the end for the right edge. *)
Definition proposal (sa ea : Event → Instant) (phase : string) (value : Instant)
    (item : Item) : Effect :=
  if bool_decide (item_type item = Some "resizeL")
  then onEventResize phase (item_data item) value (get (item_data item) ea)
  else onEventResize phase (item_data item) (get (item_data item) sa) value.




(** ** Runs of hover ticks *)

(** One call of [onSegmentHover]: the props of the row at that time, the
    hovered position and event, and the dragged item. *)
Record HoverTick := mkHoverTick {
  tick_events : list Event;
  tick_hover : Position;
  tick_hoverData : option Event;
  tick_item : Item;
}.

(** The ticks of a drag, handled one after the other; the run stops at the
    first exception. *)
Fixpoint hoverAll (withLevels : list Event → Levels) (cuid : nat → string)
    (Array_sort : (Event → Event → Z) → list Event → list Event)
    (ticks : list HoverTick) (w : World) : option World :=
  match ticks with
  | [] => Some w
  | t :: ticks' =>
      match DateContentRowWrapper.handleSegmentHover withLevels cuid Array_sort
              (tick_events t) (tick_hover t) (tick_hoverData t) (tick_item t) w with
      | Some (w', _) => hoverAll withLevels cuid Array_sort ticks' w'
      | None => None
      end
  end.

(** ** Helpers of the absent modules, from the spec, and sample data *)

(** The day of an instant and its time of day, in UTC. *)
Definition startOfDay (d : Instant) : Instant :=
  d `div` DateFns.MILLISECONDS_IN_DAY * DateFns.MILLISECONDS_IN_DAY.

Definition timeOfDay (d : Instant) : Z := d `mod` DateFns.MILLISECONDS_IN_DAY.

(** Modelled from the spec: [dates.diff] of [utils/dates], which is not
    among the sources. "duration = original end - start". *)
Definition dates_diff (a b : Instant) : Z := b - a.

(** Modelled from the spec: [helpers.merge] of [./helpers], which is not
    among the sources. "the new start preserves the original time-of-day
    merged onto the new date". *)
Definition helpers_merge (date time : Instant) : Instant :=
  startOfDay date + timeOfDay time.

(** A packing used to run the model: the [i]-th event alone in level [i],
    in column 1. *)
Definition one_per_level (events : list Event) : Levels :=
  imap (λ i e, [mkSegment (Some e) (Some 1) (Some 2) (Some 1) (Some i) None]) events.

Definition sample_event (ref : nat) (title : string) (weight : Q) : Event :=
  mkEvent ref (Some title) None None None
          (DateFns.utc 2024 3 1) (DateFns.utc 2024 3 2) weight title.

Definition evA := sample_event 1 "A" 1.
Definition evB := sample_event 2 "B" 2.
Definition evC := sample_event 3 "C" 3.
Definition evX := sample_event 4 "X" 4.

Definition sample_segment (e : Event) (left : Z) (level : nat) : Segment :=
  mkSegment (Some e) (Some left) (Some (left + 1)) (Some 1) (Some level) None.

(** Two levels over the columns 3 and 5. *)
Definition sample_levels : Levels :=
  [ [sample_segment evA 3 0; sample_segment evX 5 0];
    [sample_segment evB 3 1; sample_segment evC 5 1] ].

(** The row after mounting, and after [handleSegmentDrag] was told that the
    segment at level 0, column 3 is being dragged. *)
Definition mounted : World :=
  mkWorld None None (mkState None None None false sample_levels) 0 10.

Definition dragging : World :=
  fst (DateContentRowWrapper.handleSegmentDrag
         (Some (mkPosition (Some 0%nat) (Some 3) (Some 1))) mounted).

(** An event resized by its right edge, and one dragged in from outside. *)
Definition resizeR_item : Item := mkItem (Some "resizeR") evA None.
Definition resizeL_item : Item := mkItem (Some "resizeL") evA None.
Definition move_item : Item := mkItem (Some "event") evA None.
Definition template : Event :=
  mkEvent 9 (Some "tpl") None None (Some "outsideEvent") 0 0 0 "Template".
Definition outside_item : Item :=
  mkItem (Some "outsideEvent") template (Some (mkItemPosition 2)).

(** The hover of the segment at level 1, column 3, and the world after the
    row has handled it during the drag above. *)
Definition hover13 : Position := mkPosition (Some 1%nat) (Some 3) (Some 1).

Definition hovering : World :=
  default dragging
    (fst <$> DateContentRowWrapper.handleSegmentHover one_per_level counter_cuid
               insertion_sort [] hover13 (Some evB) move_item dragging).

(** The hover of the segment at level 1, column 5. *)
Definition hover15 : Position := mkPosition (Some 1%nat) (Some 5) (Some 1).

(** The world after the row has handled, during the same drag, the hover of
    the segment at level 1, column 5. *)
Definition hovering15 : World :=
  default dragging
    (fst <$> DateContentRowWrapper.handleSegmentHover one_per_level counter_cuid
               insertion_sort [] hover15 (Some evC) move_item dragging).

(** ** The swap, row by row *)

(** The row written for the level [i] by the swap of a hover: the segment
    [seg] goes to the place of the first segment of [row] in the column
    [dleft], if there is one. *)
Definition writeRow (dleft : option Z) (i : nat) (seg : Segment) (row : list Segment)
  : list Segment :=
  match list_find (DateContentRowWrapper.at_left dleft) row with
  | Some (k, _) => <[k := with_level (Some i) seg]> row
  | None => row
  end.

(** Two layouts of the same shape: as many levels, and as many segments in
    each level. *)
Definition same_shape (levels levels' : Levels) : Prop :=
  length <$> levels = length <$> levels'.

(** The position [p] names a level of the layout: [levels[p.level]] is a
    row. *)
Definition on_level (p : Position) (levels : Levels) : Prop :=
  is_Some (pos_level p ≫= λ l, levels !! l).

(** ** Dates of the platform, by calendar fields *)

(** The local time zone is taken to be UTC, without daylight saving. *)
Module JsDate.

(** The civil date of a day number: the inverse of
    [DateFns.days_from_civil]. *)
Definition civil_from_days (z : Z) : Z * Z * Z :=
  let z := z + 719468 in
  let era := z `div` 146097 in
  let doe := z - era * 146097 in
  let yoe := (doe - doe `div` 1460 + doe `div` 36524 - doe `div` 146096) `div` 365 in
  let y := yoe + era * 400 in
  let doy := doe - (365 * yoe + yoe `div` 4 - yoe `div` 100) in
  let mp := (5 * doy + 2) `div` 153 in
  let d := doy - (153 * mp + 2) `div` 5 + 1 in
  let m := if mp <? 10 then mp + 3 else mp - 9 in
  (if m <=? 2 then y + 1 else y, m, d).

Definition day_number (t : Instant) : Z := t `div` DateFns.MILLISECONDS_IN_DAY.

(** [date.getFullYear()] and [date.getMonth()], the month counted from 0. *)
Definition getFullYear (t : Instant) : Z := (civil_from_days (day_number t)).1.1.
Definition getMonth (t : Instant) : Z := (civil_from_days (day_number t)).1.2 - 1.

(** [new Date(year, month, date)]: a year from 0 to 99 stands for 1900 plus
    it; [month] may lie outside 0..11 and carries into the year; [date]
    counts days from the first of that month, which is 1. *)
Definition make (year month date : Z) : Instant :=
  let year := if (0 <=? year) && (year <=? 99) then 1900 + year else year in
  let ym := year + month `div` 12 in
  let mn := month `mod` 12 in
  (DateFns.days_from_civil ym (mn + 1) 1 + (date - 1)) * DateFns.MILLISECONDS_IN_DAY.

End JsDate.

(** The first instant of the month number [n], counted from January of the
    year 0, and the first instant of its last day. *)
Definition firstOfMonth (n : Z) : Instant :=
  DateFns.days_from_civil (n `div` 12) (n `mod` 12 + 1) 1 * DateFns.MILLISECONDS_IN_DAY.

Definition lastOfMonth (n : Z) : Instant :=
  firstOfMonth (n + 1) - DateFns.MILLISECONDS_IN_DAY.

(** ** Calendar (first document of unnamed/part_000) *)

(** Modelled from the spec: the module [utils/constants] is not among the
    sources. The actions of the navigation are ["PREV"], ["NEXT"] and
    ["DATE"]. *)
Module navigate.
Definition PREVIOUS : string := "PREV".
Definition NEXT : string := "NEXT".
Definition DATE : string := "DATE".
End navigate.

(** [a < b] on numbers that need not be whole. *)
Definition Qlt_bool (a b : Q) : bool := negb (Qle_bool b a).

Module Calendar.
Section Component.

(** The values of JavaScript that a table of views holds under a name:
    components, [true], [undefined], and whatever else the reading of a
    property gives. [is_true value] is [value === true]. *)
Variable Value : Type.
Variable is_true : Value → bool.

(** The plain objects of JavaScript that hold such values, with the
    operations of the platform on them, which are parameters:
    [empty_object] is [{}], [Object_keys o] is [Object.keys(o)], [read o k]
    is [o[k]] and [write k v o] is [o] after [o[k] = v]. Nothing is assumed
    of them here. On the platform the reading of a property goes on to the
    prototype of the object, so that [o["constructor"]] is a function for
    every plain [o]; the writing of ["__proto__"] makes no property of the
    object; and [Object.keys] lists the keys that are array indices before
    the others. *)
Variable Obj : Type.
Variable empty_object : Obj.
Variable Object_keys : Obj → list string.
Variable read : Obj → string → Value.
Variable write : string → Value → Obj → Obj.

(** [transform(array, iteratee, accumulator)] and
    [mapValues(object, iteratee)] of lodash, which is not among the sources.
    The iteratee of [transform] gets the accumulator and an element; it may
    write into the accumulator, which is given back beside the value it
    returns. The iteratee of [mapValues] gets a value and its key. *)
Variable transform : list string → (Obj → string → Obj * Value) → Obj → Obj.
Variable mapValues : (Value → string → Value) → Obj → Obj.

(** The prop [views]: an array of names, or an object from names to [true]
    or a component, as its prop type admits. *)
Inductive Views :=
| views_array (names : list string)
| views_object (o : Obj).

(** The table [VIEWS] of the module [./Views], which is not among the
    sources. *)
Variable VIEWS : Obj.

(** The props that the handlers below read. *)
Record Props := mkProps {
  view : string;
  views : Views;
  date : Instant;
  showTwoMonths : bool;
}.

(** [this.state]; [selected] is [None] for the empty object [{}]. *)
Record State := mkState {
  selected : option Event;
  switchMonthHeader : bool;
  selectedList : list Event;
  startOfCurrentMonth : Instant;
  endOfCurrentMonth : Instant;
  activeCalendar : Z;
}.

(** The call [notify(handler, args)] given to [setState] as its callback. *)
Inductive Notify :=
| notify_onShiftSelect (selectedList : list Event)
| notify_onSelectEvent (eventInfo : Event)
| notify_onSelectSlot (slotInfo : string).

(** What a handler of the calendar does to the outside, in order. *)
Inductive Effect :=
| setState (callback : option Notify)
| onView (view : string)
| onNavigate (date : Instant) (view : string) (action : option string).

(** [!Array.isArray(_views) ? Object.keys(_views) : _views]. *)
Definition viewNames (_views : Views) : list string :=
  match _views with
  | views_array names => names
  | views_object o => Object_keys o
  end.

(** [names.indexOf(view) !== -1]. *)
Definition isValidView (view : string) (props : Props) : bool :=
  let names := viewNames (views props) in
  bool_decide (view ∈ names).

(** [constructor]: the month of [new Date()], here [now]. *)
Definition constructor (now : Instant) : State :=
  {| startOfCurrentMonth := JsDate.make (JsDate.getFullYear now) (JsDate.getMonth now) 1;
     endOfCurrentMonth := JsDate.make (JsDate.getFullYear now) (JsDate.getMonth now + 1) 0;
     activeCalendar := 1;
     selected := None;
     switchMonthHeader := false;
     selectedList := [] |}.

Definition set_switchMonthHeader (b : bool) (st : State) : State :=
  mkState (selected st) b (selectedList st) (startOfCurrentMonth st)
          (endOfCurrentMonth st) (activeCalendar st).

(** [secondMonthFromTop] is the [top] of the bounding rectangle of the
    second month, a number of pixels that need not be whole. *)
Definition handleScroll (secondMonthFromTop : Q) (st : State)
  : State * list Effect :=
  if Qeq_bool secondMonthFromTop 0 then
    (set_switchMonthHeader false st, [setState None])
  else if Qlt_bool secondMonthFromTop 130 && negb (switchMonthHeader st) then
    (set_switchMonthHeader true st, [setState None])
  else if Qlt_bool 130 secondMonthFromTop && switchMonthHeader st then
    (set_switchMonthHeader false st, [setState None])
  else (st, []).

(** [transform(views, (obj, name) => (obj[name] = VIEWS[name]), {})] for an
    array, [mapValues(views, (value, key) => value === true ? VIEWS[key] :
    value)] for an object. An assignment has the value assigned. *)
Definition getViews (props : Props) : Obj :=
  match views props with
  | views_array names =>
      transform names
        (λ obj name, let value := read VIEWS name in (write name value obj, value))
        empty_object
  | views_object o =>
      mapValues (λ value key, if is_true value then read VIEWS key else value) o
  end.

(** [views[this.props.view]]. *)
Definition getView (props : Props) : Value :=
  let views := getViews props in
  read views (view props).

(** The calendar moves by whole months; the four tests follow one another,
    each on what the one before left, while the two times compared with
    that of [date] are those of the state. *)
Definition handleCalendarMonthChange (date : Instant) (action : option string)
    (st : State) : State * list Effect :=
  let dateTime := date in
  let startOfCurrentMonthTime := startOfCurrentMonth st in
  let endOfCurrentMonthTime := endOfCurrentMonth st in
  let '(s, e) := (startOfCurrentMonth st, endOfCurrentMonth st) in
  let '(s, e) :=
    if bool_decide (action = Some navigate.NEXT) then
      let nextMonth := JsDate.getMonth s + 1 in
      (JsDate.make (JsDate.getFullYear s) nextMonth 1,
       JsDate.make (JsDate.getFullYear e) (nextMonth + 1) 0)
    else (s, e) in
  let '(s, e) :=
    if bool_decide (action = Some navigate.PREVIOUS) then
      let previousMonth := JsDate.getMonth s - 1 in
      (JsDate.make (JsDate.getFullYear s) previousMonth 1,
       JsDate.make (JsDate.getFullYear e) (previousMonth + 1) 0)
    else (s, e) in
  let '(a, s, e) :=
    if (dateTime <? startOfCurrentMonthTime) && bool_decide (action = None) then
      (1,
       JsDate.make (JsDate.getFullYear s) (JsDate.getMonth s - 1) 1,
       JsDate.make (JsDate.getFullYear e) (JsDate.getMonth e) 0)
    else (activeCalendar st, s, e) in
  let '(a, s, e) :=
    if (endOfCurrentMonthTime <? dateTime) && bool_decide (action = None) then
      let dateCurrentMonth := JsDate.getMonth date in
      let startMonth := JsDate.getMonth s in
      let nextMonth :=
        if startMonth <? dateCurrentMonth then dateCurrentMonth else startMonth + 1 in
      (2,
       JsDate.make (JsDate.getFullYear s) nextMonth 1,
       JsDate.make (JsDate.getFullYear e) (nextMonth + 1) 0)
    else (a, s, e) in
  (mkState (selected st) (switchMonthHeader st) (selectedList st) s e a,
   [setState None]).

(** [moveDate(ViewComponent, { ...props, action, date })] of the module
    [utils/move], which is not among the sources, the other props being
    those of the component. *)
Variable moveDate : Value → option string → Instant → Instant.

(** [newDate] is [None] when the caller gives no date. *)
Definition handleNavigate (props : Props) (action : option string)
    (newDate : option Instant) (st : State) : State * list Effect :=
  let ViewComponent := getView props in
  let date := moveDate ViewComponent action (default (date props) newDate) in
  let '(st, changed) :=
    if showTwoMonths props then handleCalendarMonthChange date action st
    else (st, []) in
  (st, changed ++ [onNavigate date (view props) action]).

Definition handleViewChange (props : Props) (view' : string) : list Effect :=
  if negb (bool_decide (view' = view props)) && isValidView view' props
  then [onView view'] else [].

(** [view] is [None] when the caller gives none; the empty string is falsy
    too. *)
Definition handleDrillDown (props : Props) (date : Instant) (view' : option string)
    (st : State) : State * list Effect :=
  let changed :=
    match view' with
    | Some v => if bool_decide (v = "") then [] else handleViewChange props v
    | None => []
    end in
  let '(st, moved) := handleNavigate props (Some navigate.DATE) (Some date) st in
  (st, changed ++ moved).

(** The browser event given to [handleSelectEvent] after the event of the
    calendar. *)
Record ClickEvent := mkClickEvent { shiftKey : bool }.

(** [selectedList.splice(start, deleteCount)], for [start] within the
    array. *)
Definition splice (start deleteCount : nat) (l : list Event) : list Event :=
  take start l ++ drop (start + deleteCount) l.

(** [args] are the arguments after [eventInfo]; the first is the browser
    event, on which [persist()] is called at once. The array of the state
    is changed in place. *)
Definition handleSelectEvent (eventInfo : Event) (args : list ClickEvent)
    (st : State) : option (State * list Effect) :=
  event ← head args;
  let selectedList' :=
    if shiftKey event then
      match list_find (λ evt, ev_id evt = ev_id eventInfo) (selectedList st) with
      | Some (eventIndex, _) => splice eventIndex (eventIndex + 1) (selectedList st)
      | None => selectedList st ++ [eventInfo]
      end
    else [eventInfo] in
  Some (mkState (Some eventInfo) (switchMonthHeader st) selectedList'
          (startOfCurrentMonth st) (endOfCurrentMonth st) (activeCalendar st),
        [setState (Some (notify_onShiftSelect selectedList'));
         setState (Some (notify_onSelectEvent eventInfo))]).

(** [setState({ selected: {} }, ...)]. *)
Definition handleSelectSlot (slotInfo : string) (st : State) : State * list Effect :=
  (mkState None (switchMonthHeader st) (selectedList st)
     (startOfCurrentMonth st) (endOfCurrentMonth st) (activeCalendar st),
   [setState (Some (notify_onSelectSlot slotInfo))]).

End Component.
End Calendar.

(** ** Checks of calendar dates *)

(** [f] holds of the [n] integers from [lo]. *)
Definition all_from (f : Z → bool) (lo n : Z) : bool :=
  snd (Z.iter n (λ '(i, ok), (i + 1, ok && f i)) (lo, true)).

(** The first of the month [mn + 1] of the year [r] is read back as such,
    and the day before it lies in the month before. *)
Definition month_check (r mn : Z) : bool :=
  let z := DateFns.days_from_civil r (mn + 1) 1 in
  let '(y, m, d) := JsDate.civil_from_days z in
  let '(y', m', d') := JsDate.civil_from_days (z - 1) in
  (y =? r) && (m =? mn + 1) && (d =? 1) &&
  (12 * y' + (m' - 1) =? 12 * r + mn - 1) && (1 <=? m') && (m' <=? 12).

(** The day [z] is the day of its civil date, which is a date of a month
    from 1 to 12, and comes before the first of the month after. *)
Definition day_check (z : Z) : bool :=
  let '(y, m, d) := JsDate.civil_from_days z in
  (DateFns.days_from_civil y m d =? z) && (1 <=? m) && (m <=? 12) && (1 <=? d) &&
  (z <? DateFns.days_from_civil ((12 * y + m) `div` 12) ((12 * y + m) `mod` 12 + 1) 1).

(** The state shows the month number [n], whole. *)
Definition window (n : Z) (st : Calendar.State) : Prop :=
  Calendar.startOfCurrentMonth st = firstOfMonth n ∧
  Calendar.endOfCurrentMonth st = lastOfMonth n.

(** A year that [new Date(year, ...)] takes as it is. *)
Definition plain_year (y : Z) : Prop := y < 0 ∨ 99 < y.

(** A run of month changes, one call of [handleCalendarMonthChange] after
    the other. *)
Definition monthChanges (steps : list (Instant * option string)) (st : Calendar.State)
  : Calendar.State :=
  foldl (λ st step, fst (Calendar.handleCalendarMonthChange step.1 step.2 st)) st steps.

(** ** More sample data *)

(** A layout whose level 1 holds nothing in column 3, the drag of the
    segment at level 0, column 3 over it, and a world whose tracked drag
    position holds no segment while a hover is recorded. *)
Definition sparse_levels : Levels :=
  [ [sample_segment evA 3 0; sample_segment evX 5 0];
    [sample_segment evC 5 1] ].

Definition dragging_sparse : World :=
  mkWorld (Some (mkPosition (Some 0%nat) (Some 3) (Some 1))) None
    (mkState None None None false sparse_levels) 0 10.

Definition stale : World :=
  mkWorld (Some (mkPosition (Some 1%nat) (Some 3) (Some 1))) None
    (mkState None (Some hover15) (Some evC) false sparse_levels) 0 10.

(** The calendar opened on 2024-03-15, and with four events selected. March
    2024 is the month number 24290. *)
Definition march2024 : Calendar.State := Calendar.constructor (DateFns.utc 2024 3 15).

Definition selecting : Calendar.State :=
  Calendar.mkState None false [evA; evB; evC; evX]
    (Calendar.startOfCurrentMonth march2024) (Calendar.endOfCurrentMonth march2024) 1.

Definition shift_click : list Calendar.ClickEvent := [Calendar.mkClickEvent true].

(** An event moved inside the calendar whose data carry the mark of an
    outside event. *)
Definition marked_move_item : Item := mkItem (Some "event") template None.

(** * Properties *)

(** ** getEventTimes *)

Lemma getEventTimes_same_in_both_revisions merge diff :
  BackgroundWrapper2.getEventTimes merge diff = BackgroundWrapper.getEventTimes merge diff.
Proof. reflexivity. Qed.

(** C1. An event that starts at [T0] and lasts [D], for which [dates.diff]
    returns that duration, keeps it when it is moved onto any instant [T1]:
    the times returned by [getEventTimes] are [D] apart, on a day cell
    (type ['dateCellWrapper']) as on a time slot, whatever [helpers.merge]
    does. Both revisions of the file. *)
Theorem getEventTimes_keeps_duration
    (merge : Instant → Instant → Instant) (diff : Instant → Instant → Z)
    (T0 D T1 : Instant) (type : string) :
  diff T0 (T0 + D) = D →
  let moved := BackgroundWrapper.getEventTimes merge diff T0 (T0 + D) T1 type in
  let moved2 := BackgroundWrapper2.getEventTimes merge diff T0 (T0 + D) T1 type in
  times_end moved - times_start moved = D ∧
  times_end moved2 - times_start moved2 = D.
Proof.
  intros Hdiff moved moved2.
  assert (Hmoved : times_end moved - times_start moved = D).
  { subst moved. unfold BackgroundWrapper.getEventTimes, DateFns.addMilliseconds.
    cbn [times_end times_start]. rewrite Hdiff. lia. }
  split; [exact Hmoved|].
  subst moved2. rewrite getEventTimes_same_in_both_revisions. exact Hmoved.
Qed.

(** An event from 09:00 to 10:00 on 2024-03-01, moved onto the day cell of
    2024-03-05. *)
Lemma getEventTimes_keeps_duration_witness :
  let T0 := DateFns.utc 2024 3 1 + 32400000 in
  let T1 := DateFns.utc 2024 3 5 in
  dates_diff T0 (T0 + 3600000) = 3600000 ∧
  let moved :=
    BackgroundWrapper.getEventTimes helpers_merge dates_diff T0 (T0 + 3600000) T1
      "dateCellWrapper" in
  let moved2 :=
    BackgroundWrapper2.getEventTimes helpers_merge dates_diff T0 (T0 + 3600000) T1
      "dateCellWrapper" in
  times_end moved - times_start moved = 3600000 ∧
  times_end moved2 - times_start moved2 = 3600000.
Proof.
  split; [reflexivity|].
  apply (getEventTimes_keeps_duration helpers_merge dates_diff
           (DateFns.utc 2024 3 1 + 32400000) 3600000 (DateFns.utc 2024 3 5)
           "dateCellWrapper").
  reflexivity.
Defined.

(** [helpers_merge] puts the time of day of its second argument onto the
    day of its first. *)
Lemma helpers_merge_day date time :
  startOfDay (helpers_merge date time) = startOfDay date.
Proof.
  unfold helpers_merge, startOfDay, timeOfDay, DateFns.MILLISECONDS_IN_DAY.
  f_equal. rewrite Z.add_comm, Z.div_add by lia.
  rewrite Z.mod_div by lia. lia.
Qed.

Lemma helpers_merge_time date time :
  timeOfDay (helpers_merge date time) = timeOfDay time.
Proof.
  unfold helpers_merge, startOfDay, timeOfDay, DateFns.MILLISECONDS_IN_DAY.
  rewrite Z.add_comm, Z.mod_add by lia. apply Z.mod_mod. lia.
Qed.

(** C8. The new start is [helpers.merge(dropDate, start)] on a day cell,
    which has the day of the dropped date and the time of day of the
    original start whenever [merge] merges that way, and the dropped instant
    itself on any other target; the new end is the new start plus the
    duration [dates.diff(start, end)]. Both revisions of the file. *)
Theorem getEventTimes_start_and_end
    (merge : Instant → Instant → Instant) (diff : Instant → Instant → Z)
    (start end_ dropDate : Instant) (type : string) :
  (∀ date time, startOfDay (merge date time) = startOfDay date ∧
                timeOfDay (merge date time) = timeOfDay time) →
  let next := BackgroundWrapper.getEventTimes merge diff start end_ dropDate type in
  BackgroundWrapper2.getEventTimes merge diff start end_ dropDate type = next ∧
  times_start next =
    (if bool_decide (type = "dateCellWrapper") then merge dropDate start else dropDate) ∧
  (type = "dateCellWrapper" →
     startOfDay (times_start next) = startOfDay dropDate ∧
     timeOfDay (times_start next) = timeOfDay start) ∧
  (type ≠ "dateCellWrapper" → times_start next = dropDate) ∧
  times_end next = times_start next + diff start end_.
Proof.
  intros Hmerge next. subst next.
  unfold BackgroundWrapper.getEventTimes, DateFns.addMilliseconds.
  cbn [times_start times_end].
  split; [reflexivity|]. split; [reflexivity|].
  split; [|split; [|reflexivity]].
  - intros ->. rewrite bool_decide_eq_true_2 by reflexivity. apply Hmerge.
  - intros Hne. by rewrite bool_decide_eq_false_2.
Qed.

(** The same event moved onto the day cell of 2024-03-05 starts there at
    09:00. *)
Lemma getEventTimes_start_and_end_witness :
  (∀ date time, startOfDay (helpers_merge date time) = startOfDay date ∧
                timeOfDay (helpers_merge date time) = timeOfDay time) ∧
  let start := DateFns.utc 2024 3 1 + 32400000 in
  let next :=
    BackgroundWrapper.getEventTimes helpers_merge dates_diff start (start + 3600000)
      (DateFns.utc 2024 3 5) "dateCellWrapper" in
  times_start next = DateFns.utc 2024 3 5 + 32400000 ∧
  times_end next = DateFns.utc 2024 3 5 + 32400000 + 3600000.
Proof.
  split.
  - intros date time. split; [apply helpers_merge_day | apply helpers_merge_time].
  - pose proof (getEventTimes_start_and_end helpers_merge dates_diff
                  (DateFns.utc 2024 3 1 + 32400000)
                  (DateFns.utc 2024 3 1 + 32400000 + 3600000)
                  (DateFns.utc 2024 3 5) "dateCellWrapper"
                  (λ date time, conj (helpers_merge_day date time)
                                     (helpers_merge_time date time))) as H.
    cbv zeta in H. destruct H as (_ & Hstart & _ & _ & Hend).
    cbv zeta. rewrite Hend, Hstart. split; reflexivity.
Defined.

(** ** The hover of the drop target and its throttle *)

(** Splits the tests of [hover] and [drop] on the item. *)
Ltac item_cases :=
  repeat case_bool_decide; simplify_eq/=; try done.

Section Throttle.

Variable toString : Instant → string.

(** After [hover] returns, by whichever path, the global holds a date
    whose string is that of the hovered value. *)
Lemma hover_leaves_same_value sa ea type value monitor w :
  BackgroundWrapper.sameValue toString value
    (fst (BackgroundWrapper.hover toString sa ea type value monitor w)) = true.
Proof.
  unfold BackgroundWrapper.hover.
  destruct (BackgroundWrapper.sameValue toString value w) eqn:Hsame; [done|].
  assert (BackgroundWrapper.sameValue toString value
            (set_RBC_RESIZE_VALUE (Some value) w) = true)
    by (unfold BackgroundWrapper.sameValue; simpl; by apply bool_decide_eq_true_2).
  item_cases.
Qed.

Lemma hover2_leaves_same_value sa ea type value monitor w :
  BackgroundWrapper2.sameValue toString value
    (fst (BackgroundWrapper2.hover toString sa ea type value monitor w)) = true.
Proof.
  unfold BackgroundWrapper2.hover.
  destruct (BackgroundWrapper2.sameValue toString value w) eqn:Hsame; [done|].
  assert (BackgroundWrapper2.sameValue toString value
            (set_RBC_RESIZE_VALUE (Some value) w) = true)
    by (unfold BackgroundWrapper2.sameValue; simpl; by apply bool_decide_eq_true_2).
  destruct (bool_decide (getItemType monitor = ItemTypes.RESIZE)); [item_cases|].
  destruct (_ && _); done.
Qed.

(** The test only looks at the string of the value. *)
Lemma sameValue_string value value' w :
  toString value = toString value' →
  BackgroundWrapper.sameValue toString value' w
  = BackgroundWrapper.sameValue toString value w.
Proof. intros Heq. unfold BackgroundWrapper.sameValue. by rewrite Heq. Qed.

Lemma sameValue2_string value value' w :
  toString value = toString value' →
  BackgroundWrapper2.sameValue toString value' w
  = BackgroundWrapper2.sameValue toString value w.
Proof. intros Heq. unfold BackgroundWrapper2.sameValue. by rewrite Heq. Qed.

End Throttle.

(** C10. Of two consecutive calls of [hover] whose values have the same
    string, the second leaves the world as it is and invokes no callback,
    whatever the wrapper type, the value, the dragged item, its type and the
    accessors of the two calls: the throttle goes through the one global
    [window.RBC_RESIZE_VALUE]. Both revisions of the file; in the later
    one the first call may have ended in its [ReferenceError], which comes
    after the write of the global. *)
Theorem hover_twice_same_string_is_silent
    (toString : Instant → string)
    (sa1 ea1 sa2 ea2 : Event → Instant) (type1 type2 : string)
    (value1 value2 : Instant) (monitor1 monitor2 : Monitor) (w : World) :
  toString value1 = toString value2 →
  (let w1 := fst (BackgroundWrapper.hover toString sa1 ea1 type1 value1 monitor1 w) in
   BackgroundWrapper.hover toString sa2 ea2 type2 value2 monitor2 w1 = (w1, [])) ∧
  (let w1 := fst (BackgroundWrapper2.hover toString sa1 ea1 type1 value1 monitor1 w) in
   BackgroundWrapper2.hover toString sa2 ea2 type2 value2 monitor2 w1 = (w1, [])).
Proof.
  intros Hstr. split; intros w1.
  - unfold BackgroundWrapper.hover at 1.
    rewrite (sameValue_string toString value1 value2) by done.
    subst w1. by rewrite hover_leaves_same_value.
  - unfold BackgroundWrapper2.hover at 1.
    rewrite (sameValue2_string toString value1 value2) by done.
    subst w1. by rewrite hover2_leaves_same_value.
Qed.

(** A resize hovers a time slot, then a move hovers a day cell whose value
    lies 250 ms later, within the same second. *)
Lemma hover_twice_same_string_is_silent_witness :
  let v1 := DateFns.utc 2024 3 4 in
  let v2 := DateFns.utc 2024 3 4 + 250 in
  seconds_string v1 = seconds_string v2 ∧
  (let w1 := fst (BackgroundWrapper.hover seconds_string ev_start ev_end "dayWrapper" v1
                    (mkMonitor "resize" resizeR_item) mounted) in
   BackgroundWrapper.hover seconds_string ev_start ev_end "dateCellWrapper" v2
     (mkMonitor "event" move_item) w1 = (w1, [])) ∧
  (let w1 := fst (BackgroundWrapper2.hover seconds_string
                    ev_start ev_end "dayWrapper" v1
                    (mkMonitor "resize" resizeR_item) mounted) in
   BackgroundWrapper2.hover seconds_string
     ev_start ev_end "dateCellWrapper" v2 (mkMonitor "event" move_item) w1 = (w1, [])).
Proof.
  split; [reflexivity|].
  apply (hover_twice_same_string_is_silent seconds_string
           ev_start ev_end ev_start ev_end "dayWrapper" "dateCellWrapper"
           (DateFns.utc 2024 3 4) (DateFns.utc 2024 3 4 + 250)
           (mkMonitor "resize" resizeR_item) (mkMonitor "event" move_item) mounted).
  reflexivity.
Defined.

(** ** Resizing *)

(** C7, as stated, fails: the second of two hover ticks of a resize over the
    same value invokes nothing, neither in the later revision nor in the
    earlier one. *)
Lemma resize_hover_same_value_invokes_nothing :
  let value := DateFns.utc 2024 3 4 in
  let monitor := mkMonitor "resize" resizeR_item in
  let tick := BackgroundWrapper2.hover seconds_string
                ev_start ev_end "dayWrapper" value monitor in
  let tick' := BackgroundWrapper.hover seconds_string ev_start ev_end "dayWrapper"
                 value monitor in
  snd (tick mounted) = [onEventResize "hover" evA (ev_start evA) value] ∧
  snd (tick (fst (tick mounted))) = [] ∧
  snd (tick' (fst (tick' mounted))) = [].
Proof. vm_compute. done. Qed.

(** C7, amended. During a resize (item type ['resize'], item ['resizeL'] or
    ['resizeR']) a hover tick leaves the state of the row and the drag
    position alone; it invokes nothing when the global holds a date with the
    string of the hovered value, and otherwise invokes [onEventResize] once,
    with the proposed start or end, and records the value. The drop invokes
    [onEventResize] once with phase ['drop'] and the same proposal. So far
    both revisions. The phase of the hover tick is ['hover'] in
    [unnamed/part_001] and ['drop'] in [backgroundWrapper.js], whose hover
    tick makes the call of its drop. *)
Theorem resize_hover_previews_and_drop_commits
    (merge : Instant → Instant → Instant) (diff : Instant → Instant → Z)
    (toString : Instant → string) (sa ea : Event → Instant)
    (type : string) (value : Instant) (monitor : Monitor) (w : World) :
  getItemType monitor = ItemTypes.RESIZE →
  item_type (getItem monitor) = Some "resizeL" ∨
  item_type (getItem monitor) = Some "resizeR" →
  (let hovered := BackgroundWrapper2.hover toString sa ea type value monitor w in
   let dropped := BackgroundWrapper2.drop merge diff sa ea type value monitor w in
   state (fst hovered) = state w ∧
   RBC_DRAG_POS (fst hovered) = RBC_DRAG_POS w ∧
   (if BackgroundWrapper2.sameValue toString value w
    then hovered = (w, [])
    else hovered = (set_RBC_RESIZE_VALUE (Some value) w,
                    [proposal sa ea "hover" value (getItem monitor)])) ∧
   dropped = (w, [proposal sa ea "drop" value (getItem monitor)])) ∧
  (let hovered := BackgroundWrapper.hover toString sa ea type value monitor w in
   let dropped := BackgroundWrapper.drop merge diff sa ea type value monitor w in
   state (fst hovered) = state w ∧
   RBC_DRAG_POS (fst hovered) = RBC_DRAG_POS w ∧
   (if BackgroundWrapper.sameValue toString value w
    then hovered = (w, [])
    else hovered = (set_RBC_RESIZE_VALUE (Some value) w,
                    [proposal sa ea "drop" value (getItem monitor)])) ∧
   dropped = (w, [proposal sa ea "drop" value (getItem monitor)])).
Proof.
  intros Htype Hitem. split; intros hovered dropped; subst hovered dropped.
  - unfold BackgroundWrapper2.hover, BackgroundWrapper2.drop, proposal.
    rewrite Htype.
    destruct (BackgroundWrapper2.sameValue toString value w);
      destruct Hitem as [Hitem|Hitem]; rewrite Hitem; simpl; done.
  - unfold BackgroundWrapper.hover, BackgroundWrapper.drop, proposal.
    rewrite Htype.
    destruct (BackgroundWrapper.sameValue toString value w);
      destruct Hitem as [Hitem|Hitem]; rewrite Hitem; simpl; done.
Qed.

(** The left edge of the event A is resized over the slot of 2024-03-04. *)
Lemma resize_hover_previews_and_drop_commits_witness :
  let value := DateFns.utc 2024 3 4 in
  let monitor := mkMonitor "resize" resizeL_item in
  getItemType monitor = ItemTypes.RESIZE ∧
  (item_type (getItem monitor) = Some "resizeL" ∨
   item_type (getItem monitor) = Some "resizeR") ∧
  BackgroundWrapper2.hover seconds_string ev_start ev_end
    "dayWrapper" value monitor hovering
  = (set_RBC_RESIZE_VALUE (Some value) hovering,
     [onEventResize "hover" evA value (ev_end evA)]) ∧
  BackgroundWrapper2.drop helpers_merge dates_diff ev_start ev_end
    "dayWrapper" value monitor hovering
  = (hovering, [onEventResize "drop" evA value (ev_end evA)]) ∧
  BackgroundWrapper.hover seconds_string ev_start ev_end
    "dayWrapper" value monitor hovering
  = (set_RBC_RESIZE_VALUE (Some value) hovering,
     [onEventResize "drop" evA value (ev_end evA)]) ∧
  BackgroundWrapper.drop helpers_merge dates_diff ev_start ev_end
    "dayWrapper" value monitor hovering
  = (hovering, [onEventResize "drop" evA value (ev_end evA)]).
Proof.
  split; [reflexivity|]. split; [by left|].
  pose proof (resize_hover_previews_and_drop_commits helpers_merge dates_diff
                seconds_string ev_start ev_end "dayWrapper" (DateFns.utc 2024 3 4)
                (mkMonitor "resize" resizeL_item) hovering eq_refl
                (or_introl eq_refl)) as H.
  cbv zeta in H.
  destruct H as ((_ & _ & Hhover & Hdrop) & (_ & _ & Hhover1 & Hdrop1)).
  split; [exact Hhover|]. split; [exact Hdrop|].
  split; [exact Hhover1 | exact Hdrop1].
Defined.

(** ** Leaving a cell *)

(** C9, as stated, fails: after a hover was recorded, the exit handler
    leaves [hover] and [hoverData] set. *)
Lemma hover_exit_keeps_hover_and_hoverData :
  let w := fst (DateContentRowWrapper.handleBackgroundCellHoverExit
                  one_per_level [] hovering) in
  st_hover (state w) = Some hover13 ∧ st_hoverData (state w) = Some evB.
Proof. vm_compute. done. Qed.

(** C9, amended. The exit handler changes nothing and invokes nothing:
    [hover], [hoverData], the levels and the tracked drag position are
    after it what they were before. That also holds for the component that
    calls it from [componentWillReceiveProps] when the pointer leaves its
    cell, in both revisions. *)
Theorem hover_exit_changes_nothing
    (withLevels : list Event → Levels) (events : list Event)
    (value : Instant) (monitor : Monitor) (w : World) :
  let exit := DateContentRowWrapper.handleBackgroundCellHoverExit withLevels events in
  exit w = (w, []) ∧
  BackgroundWrapper.componentWillReceiveProps exit true false w = (w, []) ∧
  BackgroundWrapper2.componentWillReceiveProps exit true false value monitor w = (w, []).
Proof. done. Qed.

(** ** Dropping *)

(** C4, as stated, fails: a drop right after the drag started, with no
    hover recorded, leaves the shared drag position set. *)
Lemma drop_without_hover_keeps_drag_position :
  st_hoverData (state dragging) = None ∧
  DateContentRowWrapper.handleSegmentDrop true hover13 dragging = Some (dragging, []) ∧
  RBC_DRAG_POS dragging = Some (mkPosition (Some 0%nat) (Some 3) (Some 1)).
Proof. vm_compute. done. Qed.

(** C4, amended. When [hoverData] is null, [handleSegmentDrop] returns at
    once: it invokes no callback and updates no state, so that [hoverData]
    is still null and [drag], [hover] and the shared drag position are what
    they were. *)
Theorem drop_without_hover_does_nothing
    (has_onEventReorder : bool) (drop : Position) (w : World) :
  st_hoverData (state w) = None →
  DateContentRowWrapper.handleSegmentDrop has_onEventReorder drop w = Some (w, []).
Proof. intros Hnull. unfold DateContentRowWrapper.handleSegmentDrop. by rewrite Hnull. Qed.

Lemma drop_without_hover_does_nothing_witness :
  st_hoverData (state dragging) = None ∧
  DateContentRowWrapper.handleSegmentDrop true hover13 dragging = Some (dragging, []).
Proof.
  split; [reflexivity|].
  apply (drop_without_hover_does_nothing true hover13 dragging). reflexivity.
Defined.

(** ** Hovering a segment *)

Section Hover.

Import DateContentRowWrapper.

Variable withLevels : list Event → Levels.
Variable cuid : nat → string.
Variable Array_sort : (Event → Event → Z) → list Event → list Event.

#[local] Abbreviation handleSegmentHover :=
  (DateContentRowWrapper.handleSegmentHover withLevels cuid Array_sort).

(** The first branch of the handler is for the first hover of an outside
    drag only. *)
Lemma not_first_outside_hover dragEvent w :
  st_insertedOutsideEvent (state w) = true ∨
  item_type dragEvent ≠ Some "outsideEvent" →
  negb (st_insertedOutsideEvent (state w))
  && bool_decide (item_type dragEvent = Some "outsideEvent") = false.
Proof.
  intros [->|Hne]; [done|].
  rewrite (bool_decide_eq_false_2 _ Hne). apply andb_false_r.
Qed.

Lemma cellSeg_found dleft segs i seg :
  list_find (at_left dleft) segs = Some (i, seg) →
  cellSeg dleft segs = mkCellSeg (Some i) (with_isHidden false seg).
Proof. intros Hfind. unfold cellSeg. by rewrite Hfind. Qed.

(** The rows of the drag and of the hover after the swap, when both hold
    a segment in the column of the drag. *)
Lemma swapSegments_rows drag hover levels dlevel hlevel rowd rowh di hi d h :
  pos_level drag = Some dlevel →
  pos_level hover = Some hlevel →
  levels !! dlevel = Some rowd →
  list_find (at_left (pos_left drag)) rowd = Some (di, d) →
  levels !! hlevel = Some rowh →
  list_find (at_left (pos_left drag)) rowh = Some (hi, h) →
  ∃ levels',
    swapSegments drag hover levels = Some levels' ∧
    levels' !! hlevel
    = Some (<[hi := with_level (Some hlevel) (with_isHidden true d)]> rowh) ∧
    (dlevel ≠ hlevel →
     levels' !! dlevel
     = Some (<[di := with_level (Some dlevel) (with_isHidden false h)]> rowd)).
Proof.
  intros Hdl Hhl Hrowd Hd Hrowh Hh.
  unfold swapSegments. rewrite Hdl, Hhl. simpl.
  rewrite !list_lookup_fmap, Hrowd, Hrowh. simpl.
  rewrite (cellSeg_found _ _ _ _ Hd), (cellSeg_found _ _ _ _ Hh). simpl.
  eexists. split; [reflexivity|].
  assert (Hlenh : (hlevel < length (cellSeg (pos_left drag) <$> levels))%nat)
    by (rewrite length_fmap; by eapply lookup_lt_Some).
  assert (Hlend : (dlevel < length (cellSeg (pos_left drag) <$> levels))%nat)
    by (rewrite length_fmap; by eapply lookup_lt_Some).
  split.
  - rewrite list_lookup_imap, Hrowh. simpl. unfold writeBack.
    rewrite list_lookup_insert_eq by (by rewrite length_insert).
    reflexivity.
  - intros Hne. rewrite list_lookup_imap, Hrowd. simpl. unfold writeBack.
    rewrite list_lookup_insert_ne by done.
    rewrite list_lookup_insert_eq by done.
    reflexivity.
Qed.

(** C2, amended. When the hover is not the tracked drag position and the
    rows of both hold a segment in the column of the drag, the handler
    puts the dragged segment, marked [isHidden], into the row of the hover
    and the segment which that row had in the column of the drag into the
    row of the drag, each at the index of the other in its row and with
    the level of its new row; it records [hover] and [hoverData] in the
    state and gives the tracked drag position the level of the hover,
    while its [left] stays the column of the drag. *)
Theorem hover_swaps_within_drag_column
    (events : list Event) (hover : Position) (hoverData : option Event)
    (dragEvent : Item) (w : World) (drag : Position) (dlevel hlevel : nat)
    (rowd rowh : list Segment) (di hi : nat) (d h : Segment) :
  st_insertedOutsideEvent (state w) = true ∨
  item_type dragEvent ≠ Some "outsideEvent" →
  RBC_DRAG_POS w = Some drag →
  _posEq drag hover = false →
  pos_level drag = Some dlevel →
  pos_level hover = Some hlevel →
  st_levels (state w) !! dlevel = Some rowd →
  list_find (at_left (pos_left drag)) rowd = Some (di, d) →
  st_levels (state w) !! hlevel = Some rowh →
  list_find (at_left (pos_left drag)) rowh = Some (hi, h) →
  ∃ levels',
    handleSegmentHover events hover hoverData dragEvent w
    = Some (mkWorld (Some (mkPosition (Some hlevel) (pos_left drag) (pos_span drag)))
              (RBC_RESIZE_VALUE w)
              (mkState (st_drag (state w)) (Some hover) hoverData
                       (st_insertedOutsideEvent (state w)) levels')
              (cuid_calls w) (allocated w),
            [setState]) ∧
    levels' !! hlevel
    = Some (<[hi := with_level (Some hlevel) (with_isHidden true d)]> rowh) ∧
    (dlevel ≠ hlevel →
     levels' !! dlevel
     = Some (<[di := with_level (Some dlevel) (with_isHidden false h)]> rowd)).
Proof.
  intros Hguard Hdrag Hneq Hdl Hhl Hrowd Hd Hrowh Hh.
  destruct (swapSegments_rows drag hover _ _ _ _ _ _ _ _ _ Hdl Hhl Hrowd Hd Hrowh Hh)
    as (levels' & Hswap & Hrows).
  exists levels'. split; [|exact Hrows].
  unfold DateContentRowWrapper.handleSegmentHover.
  rewrite (not_first_outside_hover _ _ Hguard), Hdrag. simpl.
  rewrite Hneq, Hswap. simpl. by rewrite Hhl.
Qed.

(** When the hover is the tracked drag position and this is not the first
    hover of an outside drag, the handler returns at once. *)
Lemma hover_at_drag_position events hover hoverData dragEvent w drag :
  st_insertedOutsideEvent (state w) = true ∨
  item_type dragEvent ≠ Some "outsideEvent" →
  RBC_DRAG_POS w = Some drag →
  _posEq drag hover = true →
  handleSegmentHover events hover hoverData dragEvent w = Some (w, []).
Proof.
  intros Hguard Hdrag Heq.
  unfold DateContentRowWrapper.handleSegmentHover.
  rewrite (not_first_outside_hover _ _ Hguard), Hdrag. simpl. by rewrite Heq.
Qed.

(** After a hover of an item, no later hover of that item is the first
    hover of an outside drag. *)
Lemma hover_passes_outside_insert events hover hoverData dragEvent w w' effects :
  handleSegmentHover events hover hoverData dragEvent w = Some (w', effects) →
  st_insertedOutsideEvent (state w') = true ∨
  item_type dragEvent ≠ Some "outsideEvent".
Proof.
  unfold DateContentRowWrapper.handleSegmentHover.
  destruct (st_insertedOutsideEvent (state w)) eqn:Hins; simpl.
  - intros Hrun. left.
    destruct (RBC_DRAG_POS w) as [drag|]; simplify_eq/=.
    destruct (_posEq drag hover); simplify_eq/=; [done|].
    destruct (swapSegments drag hover _); by simplify_eq/=.
  - case_bool_decide as Houtside; simpl.
    + intros Hrun. left.
      destruct (item_position dragEvent); simplify_eq/=.
      destruct hoverData; simplify_eq/=.
      destruct (findDragData _ _); by simplify_eq/=.
    + intros _. by right.
Qed.

(** C3, amended. A position in the column of the tracked drag position is
    hovered twice in a row, the first hover of an outside drag being past.
    After the first call the tracked drag position is the hovered one, and
    the second call changes nothing: the world it returns is the one it was
    given, levels included, and it issues no [setState] and invokes no
    callback. *)
Theorem hover_same_position_again_is_noop
    (events events' : list Event) (hover : Position)
    (hoverData hoverData' : option Event) (dragEvent : Item)
    (w w1 : World) (effects : list Effect) (drag : Position) :
  st_insertedOutsideEvent (state w) = true ∨
  item_type dragEvent ≠ Some "outsideEvent" →
  RBC_DRAG_POS w = Some drag →
  pos_left hover = pos_left drag →
  handleSegmentHover events hover hoverData dragEvent w = Some (w1, effects) →
  (∃ drag1, RBC_DRAG_POS w1 = Some drag1 ∧ _posEq drag1 hover = true) ∧
  handleSegmentHover events' hover hoverData' dragEvent w1 = Some (w1, []).
Proof.
  intros Hguard Hdrag Hleft Hfirst.
  assert (Hguard1 : st_insertedOutsideEvent (state w1) = true ∨
                    item_type dragEvent ≠ Some "outsideEvent")
    by (by eapply hover_passes_outside_insert).
  assert (Htracked : ∃ drag1, RBC_DRAG_POS w1 = Some drag1 ∧ _posEq drag1 hover = true).
  { unfold DateContentRowWrapper.handleSegmentHover in Hfirst.
    rewrite (not_first_outside_hover _ _ Hguard), Hdrag in Hfirst. simpl in Hfirst.
    destruct (_posEq drag hover) eqn:Heq.
    - injection Hfirst as <- _. by exists drag.
    - destruct (swapSegments drag hover _) as [levels1|]; [|done].
      simpl in Hfirst. injection Hfirst as <- _.
      eexists. split; [reflexivity|].
      unfold _posEq. simpl. rewrite Hleft.
      by rewrite !bool_decide_eq_true_2. }
  split; [exact Htracked|].
  destruct Htracked as (drag1 & Hdrag1 & Heq1).
  by eapply hover_at_drag_position.
Qed.

End Hover.

(** C2, as stated, fails: the segment dragged from level 0, column 3 hovers
    the segment at level 1, column 5. The tracked drag position gets level
    1 and keeps column 3; the segment at column 5 stays where it was, and
    the dragged segment changes places with the one at level 1, column 3. *)
Lemma hover_other_column_keeps_drag_column :
  pos_left hover15 = Some 5 ∧
  DateContentRowWrapper.handleSegmentHover one_per_level counter_cuid insertion_sort
    [] hover15 (Some evC) move_item dragging
  = Some (mkWorld (Some (mkPosition (Some 1%nat) (Some 3) (Some 1))) None
            (mkState None (Some hover15) (Some evC) false
               [ [with_isHidden false (sample_segment evB 3 0); sample_segment evX 5 0];
                 [with_isHidden true (sample_segment evA 3 1); sample_segment evC 5 1] ])
            0 10,
          [setState]).
Proof. vm_compute. done. Qed.

Lemma hover_swaps_within_drag_column_witness :
  ∃ levels',
    DateContentRowWrapper.handleSegmentHover one_per_level counter_cuid insertion_sort
      [] hover13 (Some evB) move_item dragging
    = Some (mkWorld (Some (mkPosition (Some 1%nat) (Some 3) (Some 1))) None
              (mkState None (Some hover13) (Some evB) false levels') 0 10,
            [setState]) ∧
    levels' !! 1%nat
    = Some [with_isHidden true (sample_segment evA 3 1); sample_segment evC 5 1] ∧
    (0%nat ≠ 1%nat →
     levels' !! 0%nat
     = Some [with_isHidden false (sample_segment evB 3 0); sample_segment evX 5 0]).
Proof.
  apply (hover_swaps_within_drag_column one_per_level counter_cuid insertion_sort
           [] hover13 (Some evB) move_item dragging
           (mkPosition (Some 0%nat) (Some 3) (Some 1)) 0%nat 1%nat
           [sample_segment evA 3 0; sample_segment evX 5 0]
           [sample_segment evB 3 1; sample_segment evC 5 1]
           0%nat 0%nat (sample_segment evA 3 0) (sample_segment evB 3 1)).
  - right. discriminate.
  - reflexivity.
  - reflexivity.
  - reflexivity.
  - reflexivity.
  - reflexivity.
  - reflexivity.
  - reflexivity.
  - reflexivity.
Defined.

(** C3, as stated, fails. During the drag of the segment at level 0, column
    3, the segment at level 1, column 5 is hovered twice in a row: the
    tracked drag position keeps column 3, so the second call is not at it,
    runs the swap again and calls [setState] again. And when the first of
    the two calls is the first hover of an outside drag, it leaves
    [window.RBC_DRAG_POS] as it was, here empty, and the second call throws
    on it. *)
Lemma hover_same_position_twice_sets_state_again :
  DateContentRowWrapper.handleSegmentHover one_per_level counter_cuid insertion_sort
    [] hover15 (Some evC) move_item dragging = Some (hovering15, [setState]) ∧
  DateContentRowWrapper.handleSegmentHover one_per_level counter_cuid insertion_sort
    [] hover15 (Some evC) move_item hovering15 = Some (hovering15, [setState]) ∧
  ∃ inserted,
    DateContentRowWrapper.handleSegmentHover one_per_level counter_cuid insertion_sort
      [evA; evB] hover13 (Some evB) outside_item mounted = Some (inserted, [setState]) ∧
    DateContentRowWrapper.handleSegmentHover one_per_level counter_cuid insertion_sort
      [evA; evB] hover13 (Some evB) outside_item inserted = None.
Proof.
  split; [vm_compute; done|]. split; [vm_compute; done|].
  eexists. split; [vm_compute; reflexivity|]. vm_compute. done.
Qed.

(** The segment at level 1, column 3 is hovered twice in a row. *)
Lemma hover_same_position_again_is_noop_witness :
  DateContentRowWrapper.handleSegmentHover one_per_level counter_cuid insertion_sort
    [] hover13 (Some evB) move_item dragging = Some (hovering, [setState]) ∧
  pos_left hover13 = Some 3 ∧
  RBC_DRAG_POS hovering = Some hover13 ∧
  DateContentRowWrapper.handleSegmentHover one_per_level counter_cuid insertion_sort
    [] hover13 (Some evB) move_item hovering = Some (hovering, []).
Proof.
  split; [reflexivity|]. split; [reflexivity|]. split; [reflexivity|].
  apply (hover_same_position_again_is_noop one_per_level counter_cuid insertion_sort
           [] [] hover13 (Some evB) (Some evB) move_item dragging hovering
           [setState] (mkPosition (Some 0%nat) (Some 3) (Some 1))).
  - right. discriminate.
  - reflexivity.
  - reflexivity.
  - reflexivity.
Defined.

(** ** Dropping after a hover *)

Section Drop.

Import DateContentRowWrapper.





End Drop.



(** ** The first hover of an outside drag *)

Lemma insert_by_perm cmp x l : insert_by cmp x l ≡ₚ x :: l.
Proof.
  induction l as [|y l IH]; simpl; [done|].
  destruct (cmp x y <? 0); [done|].
  rewrite IH. apply Permutation_swap.
Qed.

Lemma insertion_sort_perm cmp l : insertion_sort cmp l ≡ₚ l.
Proof.
  unfold insertion_sort. induction l as [|x l IH]; simpl; [done|].
  by rewrite insert_by_perm, IH.
Qed.

Lemma counter_cuid_inj : Inj (=) (=) counter_cuid.
Proof.
  intros m n Heq. unfold counter_cuid in Heq. simpl in Heq.
  injection Heq as Heq. by apply (inj pretty).
Qed.

Lemma half_less (q : Q) : (q - (1 # 2) < q)%Q.
Proof.
  destruct q as [a b]. unfold Qlt, Qminus, Qplus, Qopp. simpl. lia.
Qed.

Section OutsideInsert.

Import DateContentRowWrapper.

Variable withLevels : list Event → Levels.
Variable cuid : nat → string.
Variable Array_sort : (Event → Event → Z) → list Event → list Event.

#[local] Abbreviation handleSegmentHover :=
  (DateContentRowWrapper.handleSegmentHover withLevels cuid Array_sort).

(** Once [insertedOutsideEvent] is set, a hover creates no event, calls
    [cuid] no more and leaves the flag set. *)
Lemma hover_after_insert events hover hoverData dragEvent w w' effects :
  st_insertedOutsideEvent (state w) = true →
  handleSegmentHover events hover hoverData dragEvent w = Some (w', effects) →
  st_insertedOutsideEvent (state w') = true ∧
  allocated w' = allocated w ∧ cuid_calls w' = cuid_calls w.
Proof.
  intros Hins. unfold DateContentRowWrapper.handleSegmentHover.
  rewrite Hins. simpl. intros Hrun.
  destruct (RBC_DRAG_POS w) as [drag|]; simplify_eq/=.
  destruct (_posEq drag hover); simplify_eq/=; [done|].
  destruct (swapSegments drag hover _); by simplify_eq/=.
Qed.

Lemma hoverAll_after_insert ticks w w' :
  st_insertedOutsideEvent (state w) = true →
  hoverAll withLevels cuid Array_sort ticks w = Some w' →
  st_insertedOutsideEvent (state w') = true ∧
  allocated w' = allocated w ∧ cuid_calls w' = cuid_calls w.
Proof.
  revert w. induction ticks as [|t ticks IH]; intros w Hins; simpl.
  - intros [= <-]. done.
  - destruct (DateContentRowWrapper.handleSegmentHover _ _ _ _ _ _ _ w)
      as [[w1 effects]|] eqn:Hstep; [|done].
    intros Hrest.
    destruct (hover_after_insert _ _ _ _ _ _ _ Hins Hstep) as (Hins1 & Ha & Hc).
    destruct (IH _ Hins1 Hrest) as (? & ? & ?).
    split; [done|]. split; congruence.
Qed.

(** C5. On the first hover of an outside drag ([insertedOutsideEvent] not
    set, item of type ['outsideEvent'] with a span) over an event, the
    handler makes one new event: its id is the result of one new call of
    [cuid], unlike every id [cuid] gave before; it starts where the
    hovered event starts and ends [span] days later; its weight is that of
    the hovered event less 0.5. The events given to [withLevels] are the
    events of the row and that new one; the levels returned go into the
    state, as does the drag position with the level of the first segment
    that holds the new event, and the flag [insertedOutsideEvent]. No
    later hover, whatever it is, makes another event or calls [cuid]
    again. Two days after 2024-03-01 is 2024-03-03. *)
Theorem first_outside_hover_inserts_once
    (events : list Event) (hover : Position) (hoverData : Event)
    (dragEvent : Item) (position : ItemPosition) (w : World) (found : Segment) :
  (∀ cmp l, Array_sort cmp l ≡ₚ l) →
  Inj (=) (=) cuid →
  st_insertedOutsideEvent (state w) = false →
  item_type dragEvent = Some "outsideEvent" →
  item_position dragEvent = Some position →
  let span := ip_span position in
  let data := provisional cuid (item_data dragEvent) hoverData span w in
  let events' := Array_sort byWeight (events ++ [data]) in
  findDragData data (withLevels events') = Some found →
  let w' :=
    mkWorld (RBC_DRAG_POS w) (RBC_RESIZE_VALUE w)
      (mkState (Some (mkPosition (seg_level found) (pos_left hover) (Some span)))
               (st_hover (state w)) (st_hoverData (state w)) true
               (withLevels events'))
      (S (cuid_calls w)) (S (allocated w)) in
  handleSegmentHover events hover (Some hoverData) dragEvent w = Some (w', [setState]) ∧
  ev_id data = Some (cuid (cuid_calls w)) ∧
  (∀ n, (n < cuid_calls w)%nat → ev_id data ≠ Some (cuid n)) ∧
  ev_start data = ev_start hoverData ∧
  ev_end data = DateFns.addDays (ev_start hoverData) span ∧
  ev_weight data = (ev_weight hoverData - (1 # 2))%Q ∧
  (ev_weight data < ev_weight hoverData)%Q ∧
  events' ≡ₚ events ++ [data] ∧
  (∀ ticks w'',
     hoverAll withLevels cuid Array_sort ticks w' = Some w'' →
     st_insertedOutsideEvent (state w'') = true ∧
     allocated w'' = allocated w' ∧ cuid_calls w'' = cuid_calls w') ∧
  DateFns.addDays (DateFns.utc 2024 3 1) 2 = DateFns.utc 2024 3 3.
Proof.
  intros Hperm Hinj Hins Htype Hpos span data events' Hfound w'.
  split; [|repeat split].
  - unfold DateContentRowWrapper.handleSegmentHover.
    rewrite Hins, Htype, Hpos. simpl.
    fold span. fold data. fold events'. by rewrite Hfound.
  - intros n Hlt [= Heq]. apply Hinj in Heq. lia.
  - apply half_less.
  - apply Hperm.
  - eapply hoverAll_after_insert; [|done]. done.
  - eapply hoverAll_after_insert; [|done]. done.
  - eapply hoverAll_after_insert; [|done]. done.
Qed.

End OutsideInsert.

(** A template of span 2 is dragged from outside over the event B, which
    starts on 2024-03-01 and weighs 2, and then hovers once more. *)
Lemma first_outside_hover_inserts_once_witness :
  let data := DateContentRowWrapper.provisional counter_cuid template evB 2 dragging in
  let w' :=
    mkWorld (RBC_DRAG_POS dragging) None
      (mkState (Some (mkPosition (Some 1%nat) (Some 5) (Some 2))) None None true
               (one_per_level [evA; data; evB])) 1 11 in
  DateContentRowWrapper.handleSegmentHover one_per_level counter_cuid insertion_sort
    [evA; evB] hover15 (Some evB) outside_item dragging = Some (w', [setState]) ∧
  ev_id data = Some "c0" ∧
  ev_start data = DateFns.utc 2024 3 1 ∧
  ev_end data = DateFns.utc 2024 3 3 ∧
  ev_weight data = (3 # 2)%Q ∧
  (allocated ∘ fst <$>
     DateContentRowWrapper.handleSegmentHover one_per_level counter_cuid insertion_sort
       [evA; evB] hover13 (Some evB) outside_item w') = Some 11%nat.
Proof.
  pose proof (first_outside_hover_inserts_once one_per_level counter_cuid insertion_sort
                [evA; evB] hover15 evB outside_item (mkItemPosition 2) dragging
                (mkSegment
                   (Some (DateContentRowWrapper.provisional counter_cuid template evB 2 dragging))
                   (Some 1) (Some 2) (Some 1) (Some 1%nat) None)
                insertion_sort_perm counter_cuid_inj eq_refl eq_refl eq_refl eq_refl) as H.
  cbv zeta in H. destruct H as (Hrun & _).
  cbv zeta. split; [exact Hrun|].
  repeat split; reflexivity.
Defined.

(** ** A hover followed by a drop *)

Section HoverThenDrop.

Import DateContentRowWrapper.

Variable withLevels : list Event → Levels.
Variable cuid : nat → string.
Variable Array_sort : (Event → Event → Z) → list Event → list Event.

(** The segment written over the first one of a row in some column is the
    one that [find] returns for that column. *)
Lemma find_written_segment level dleft span row i seg seg' :
  list_find (at_left dleft) row = Some (i, seg) →
  seg_left seg' = dleft →
  List.find (at_drag_left (mkPosition level dleft span)) (<[i := seg']> row) = Some seg'.
Proof.
  revert i. induction row as [|x row IH]; intros i; [done|].
  cbn [list_find]. case_decide as Hx.
  - intros [= <- <-] Hleft. simpl. unfold at_drag_left. simpl.
    by rewrite bool_decide_eq_true_2.
  - destruct (list_find (at_left dleft) row) as [[j y]|] eqn:Hrow; [|done].
    intros [= <- <-] Hleft. simpl. unfold at_drag_left at 1. simpl.
    rewrite bool_decide_eq_false_2 by (intros Heq; by apply Hx).
    by apply IH.
Qed.

(** After the swap of a hover, a drop finds the dragged segment at the
    tracked drag position and reports its event, with the level of the hover
    as the level of the drag. *)
Lemma hover_then_drop_reports_dragged_event
    (events : list Event) (hover drop : Position) (hoverData : Event)
    (dragEvent : Item) (w : World) (drag : Position) (dlevel hlevel : nat)
    (rowd rowh : list Segment) (di hi : nat) (d h : Segment) :
  st_insertedOutsideEvent (state w) = true ∨
  item_type dragEvent ≠ Some "outsideEvent" →
  RBC_DRAG_POS w = Some drag →
  _posEq drag hover = false →
  pos_level drag = Some dlevel →
  pos_level hover = Some hlevel →
  st_levels (state w) !! dlevel = Some rowd →
  list_find (at_left (pos_left drag)) rowd = Some (di, d) →
  st_levels (state w) !! hlevel = Some rowh →
  list_find (at_left (pos_left drag)) rowh = Some (hi, h) →
  ∃ w1 w2 orderedEvents,
    DateContentRowWrapper.handleSegmentHover withLevels cuid Array_sort
      events hover (Some hoverData) dragEvent w = Some (w1, [setState]) ∧
    handleSegmentDrop true drop w1
    = Some (w2, [onEventReorder (seg_event d) hoverData (Some hlevel)
                   (pos_level drop) orderedEvents; setState]) ∧
    RBC_DRAG_POS w2 = None ∧ st_hover (state w2) = None ∧
    st_hoverData (state w2) = None.
Proof.
  intros Hguard Hdrag Hneq Hdl Hhl Hrowd Hd Hrowh Hh.
  destruct (swapSegments_rows drag hover _ _ _ _ _ _ _ _ _ Hdl Hhl Hrowd Hd Hrowh Hh)
    as (levels' & Hswap & Hrowh' & _).
  eexists _, _, _. split.
  - unfold DateContentRowWrapper.handleSegmentHover.
    rewrite (not_first_outside_hover _ _ Hguard), Hdrag. simpl.
    rewrite Hneq, Hswap. simpl. reflexivity.
  - unfold handleSegmentDrop. simpl. rewrite Hhl. simpl. rewrite Hrowh'. simpl.
    assert (Hleft : seg_left (with_level (Some hlevel) (with_isHidden true d))
                    = pos_left drag)
      by (apply list_find_Some in Hd as (_ & Hd & _); exact Hd).
    rewrite (find_written_segment _ _ _ _ _ _ _ Hh Hleft). simpl.
    repeat split; reflexivity.
Qed.

End HoverThenDrop.

(** * Further properties of the code *)

(** ** The swap, row by row *)

Section SwapRows.

Import DateContentRowWrapper.

Lemma idx_cellSeg dleft row :
  idx (cellSeg dleft row) = fst <$> list_find (at_left dleft) row.
Proof. unfold cellSeg. by destruct (list_find _ row) as [[k s]|]. Qed.

(** What [swapSegments] returns, row by row: the row of the hover gets the
    dragged entry, the row of the drag the entry of the hover, every other
    row its own entry. *)
Lemma swapSegments_lookup drag hover levels levels' dlevel hlevel rowd rowh i row :
  swapSegments drag hover levels = Some levels' →
  pos_level drag = Some dlevel →
  pos_level hover = Some hlevel →
  levels !! dlevel = Some rowd →
  levels !! hlevel = Some rowh →
  levels !! i = Some row →
  levels' !! i
  = Some (writeRow (pos_left drag) i
            (if decide (i = hlevel)
             then with_isHidden true (cs_seg (cellSeg (pos_left drag) rowd))
             else if decide (i = dlevel)
                  then cs_seg (cellSeg (pos_left drag) rowh)
                  else cs_seg (cellSeg (pos_left drag) row))
            row).
Proof.
  intros Hswap Hdl Hhl Hrowd Hrowh Hrow.
  unfold swapSegments in Hswap. rewrite Hdl, Hhl in Hswap. simpl in Hswap.
  rewrite !list_lookup_fmap, Hrowd, Hrowh in Hswap. simpl in Hswap.
  injection Hswap as <-.
  assert (Hlenh : (hlevel < length (cellSeg (pos_left drag) <$> levels))%nat)
    by (rewrite length_fmap; by eapply lookup_lt_Some).
  assert (Hlend : (dlevel < length (cellSeg (pos_left drag) <$> levels))%nat)
    by (rewrite length_fmap; by eapply lookup_lt_Some).
  rewrite list_lookup_imap, Hrow. simpl. f_equal.
  unfold writeBack, writeRow.
  destruct (decide (i = hlevel)) as [->|Hih].
  - rewrite list_lookup_insert_eq by (by rewrite length_insert).
    rewrite Hrowh in Hrow. injection Hrow as <-. rewrite idx_cellSeg.
    by destruct (list_find _ rowh) as [[k s]|].
  - rewrite list_lookup_insert_ne by done.
    destruct (decide (i = dlevel)) as [->|Hid].
    + rewrite list_lookup_insert_eq by done.
      rewrite Hrowd in Hrow. injection Hrow as <-. rewrite idx_cellSeg.
      by destruct (list_find _ rowd) as [[k s]|].
    + rewrite list_lookup_insert_ne by done.
      rewrite list_lookup_fmap, Hrow. simpl.
      unfold cellSeg. by destruct (list_find _ row) as [[k s]|].
Qed.

(** A swap that succeeds has found the rows of the drag and of the hover. *)
Lemma swapSegments_inv drag hover levels levels' :
  swapSegments drag hover levels = Some levels' →
  ∃ dlevel hlevel rowd rowh,
    pos_level drag = Some dlevel ∧ pos_level hover = Some hlevel ∧
    levels !! dlevel = Some rowd ∧ levels !! hlevel = Some rowh.
Proof.
  unfold swapSegments. intros Hswap.
  destruct (pos_level drag) as [dlevel|]; [|done].
  destruct (pos_level hover) as [hlevel|]; simpl in Hswap.
  - rewrite !list_lookup_fmap in Hswap.
    destruct (levels !! dlevel) as [rowd|] eqn:Hrowd; simpl in Hswap; [|done].
    destruct (levels !! hlevel) as [rowh|] eqn:Hrowh; simpl in Hswap; [|done].
    by exists dlevel, hlevel, rowd, rowh.
  - by destruct ((cellSeg (pos_left drag) <$> levels) !! dlevel).
Qed.

Lemma writeRow_length dleft i seg row :
  length (writeRow dleft i seg row) = length row.
Proof.
  unfold writeRow. destruct (list_find _ row) as [[k s]|]; [|done].
  apply length_insert.
Qed.

Lemma writeRow_other_column dleft i seg row k s :
  row !! k = Some s → seg_left s ≠ dleft →
  writeRow dleft i seg row !! k = Some s.
Proof.
  intros Hk Hleft. unfold writeRow.
  destruct (list_find _ row) as [[k0 s0]|] eqn:Hfind; [|done].
  apply list_find_Some in Hfind as (Hk0 & Hs0 & _).
  rewrite list_lookup_insert_ne; [done|].
  intros ->. rewrite Hk0 in Hk. injection Hk as ->. done.
Qed.

Lemma swapSegments_length drag hover levels levels' :
  swapSegments drag hover levels = Some levels' → length levels' = length levels.
Proof.
  unfold swapSegments. intros Hswap.
  destruct (pos_level drag); [|done]. simpl in Hswap.
  destruct (_ !! _); [|done]. simpl in Hswap.
  destruct (pos_level hover); [|done]. simpl in Hswap.
  destruct (_ !! _); [|done]. simpl in Hswap.
  injection Hswap as <-. apply length_imap.
Qed.

(** X1. The swap of a hover keeps the shape of the layout: as many levels
    after it as before, and as many segments in each level. *)
Theorem hover_keeps_shape
    (withLevels : list Event → Levels) (cuid : nat → string)
    (Array_sort : (Event → Event → Z) → list Event → list Event)
    (events : list Event) (hover : Position) (hoverData : option Event)
    (dragEvent : Item) (w w' : World) (effects : list Effect) :
  st_insertedOutsideEvent (state w) = true ∨
  item_type dragEvent ≠ Some "outsideEvent" →
  DateContentRowWrapper.handleSegmentHover withLevels cuid Array_sort
    events hover hoverData dragEvent w = Some (w', effects) →
  same_shape (st_levels (state w)) (st_levels (state w')).
Proof.
  intros Hguard. unfold DateContentRowWrapper.handleSegmentHover.
  rewrite (not_first_outside_hover _ _ Hguard).
  destruct (RBC_DRAG_POS w) as [drag|]; [|done]. simpl.
  destruct (_posEq drag hover); [by intros [= <- _]|].
  destruct (swapSegments drag hover _) as [levels'|] eqn:Hswap; [|done].
  simpl. intros [= <- _]. simpl. unfold same_shape.
  destruct (swapSegments_inv _ _ _ _ Hswap) as (dl & hl & rowd & rowh & ? & ? & ? & ?).
  apply list_eq. intros i. rewrite !list_lookup_fmap.
  destruct (st_levels (state w) !! i) as [row|] eqn:Hrow.
  - erewrite swapSegments_lookup by done. simpl. by rewrite writeRow_length.
  - apply lookup_ge_None in Hrow.
    rewrite (lookup_ge_None_2 levels'); [done|].
    by rewrite (swapSegments_length _ _ _ _ Hswap).
Qed.

(** X2. The swap of a hover only writes in the column of the drag: a
    segment whose [left] is not that of the tracked drag position is after
    the hover where and what it was before. *)
Theorem hover_keeps_other_columns
    (withLevels : list Event → Levels) (cuid : nat → string)
    (Array_sort : (Event → Event → Z) → list Event → list Event)
    (events : list Event) (hover : Position) (hoverData : option Event)
    (dragEvent : Item) (w w' : World) (effects : list Effect)
    (drag : Position) (i k : nat) (row : list Segment) (seg : Segment) :
  st_insertedOutsideEvent (state w) = true ∨
  item_type dragEvent ≠ Some "outsideEvent" →
  DateContentRowWrapper.handleSegmentHover withLevels cuid Array_sort
    events hover hoverData dragEvent w = Some (w', effects) →
  RBC_DRAG_POS w = Some drag →
  st_levels (state w) !! i = Some row →
  row !! k = Some seg →
  seg_left seg ≠ pos_left drag →
  ∃ row', st_levels (state w') !! i = Some row' ∧ row' !! k = Some seg.
Proof.
  intros Hguard Hrun Hdrag Hrow Hk Hleft.
  unfold DateContentRowWrapper.handleSegmentHover in Hrun.
  rewrite (not_first_outside_hover _ _ Hguard), Hdrag in Hrun. simpl in Hrun.
  destruct (_posEq drag hover).
  { injection Hrun as <- _. by exists row. }
  destruct (swapSegments drag hover _) as [levels'|] eqn:Hswap; [|done].
  simpl in Hrun. injection Hrun as <- _. simpl.
  destruct (swapSegments_inv _ _ _ _ Hswap) as (dl & hl & rowd & rowh & ? & ? & ? & ?).
  eexists. split.
  - by eapply swapSegments_lookup.
  - by apply writeRow_other_column.
Qed.

End SwapRows.

(** The segment X at level 0, column 5 while the segment at column 3 is
    dragged over level 1. *)
Lemma hover_keeps_shape_witness :
  (st_insertedOutsideEvent (state dragging) = true ∨
   item_type move_item ≠ Some "outsideEvent") ∧
  DateContentRowWrapper.handleSegmentHover one_per_level counter_cuid insertion_sort
    [] hover13 (Some evB) move_item dragging = Some (hovering, [setState]) ∧
  same_shape (st_levels (state dragging)) (st_levels (state hovering)).
Proof.
  split; [by right|]. split; [reflexivity|].
  apply (hover_keeps_shape one_per_level counter_cuid insertion_sort
           [] hover13 (Some evB) move_item dragging hovering [setState]).
  - by right.
  - reflexivity.
Defined.

Lemma hover_keeps_other_columns_witness :
  ∃ row', st_levels (state hovering) !! 0%nat = Some row' ∧
          row' !! 1%nat = Some (sample_segment evX 5 0).
Proof.
  apply (hover_keeps_other_columns one_per_level counter_cuid insertion_sort
           [] hover13 (Some evB) move_item dragging hovering [setState]
           (mkPosition (Some 0%nat) (Some 3) (Some 1)) 0%nat 1%nat
           [sample_segment evA 3 0; sample_segment evX 5 0] (sample_segment evX 5 0)).
  - by right.
  - reflexivity.
  - reflexivity.
  - reflexivity.
  - reflexivity.
  - discriminate.
Defined.

(** ** Hovering twice, and hovering a row without the column *)

Section SwapTwice.

Import DateContentRowWrapper.

Variable withLevels : list Event → Levels.
Variable cuid : nat → string.
Variable Array_sort : (Event → Event → Z) → list Event → list Event.

Lemma list_find_written dleft row k s y :
  list_find (at_left dleft) row = Some (k, s) →
  seg_left y = dleft →
  list_find (at_left dleft) (<[k := y]> row) = Some (k, y).
Proof.
  intros Hfind Hy. apply list_find_Some in Hfind as (Hk & Hs & Hmin).
  apply list_find_Some. split; [|split; [done|]].
  - apply list_lookup_insert_eq. by eapply lookup_lt_Some.
  - intros j z Hj Hlt. rewrite list_lookup_insert_ne in Hj by lia. by eapply Hmin.
Qed.

Lemma writeRow_twice dleft i x y row :
  seg_left (with_level (Some i) x) = dleft →
  writeRow dleft i y (writeRow dleft i x row) = writeRow dleft i y row.
Proof.
  intros Hx. unfold writeRow at 2 3.
  destruct (list_find (at_left dleft) row) as [[k s]|] eqn:Hfind.
  - unfold writeRow. rewrite (list_find_written _ _ _ _ _ Hfind Hx).
    apply list_insert_insert_eq.
  - unfold writeRow. by rewrite Hfind.
Qed.

Lemma writeRow_found dleft i x row k s :
  list_find (at_left dleft) row = Some (k, s) →
  seg_left x = dleft →
  cellSeg dleft (writeRow dleft i x row)
  = mkCellSeg (Some k) (with_isHidden false (with_level (Some i) x)).
Proof.
  intros Hfind Hx. unfold writeRow. rewrite Hfind.
  by rewrite (cellSeg_found _ _ _ _
                (list_find_written _ _ _ _ (with_level (Some i) x) Hfind Hx)).
Qed.

Lemma writeRow_ext dleft i x y row :
  with_level (Some i) x = with_level (Some i) y →
  writeRow dleft i x row = writeRow dleft i y row.
Proof.
  intros Heq. unfold writeRow.
  destruct (list_find _ row) as [[k s]|]; [|done]. by rewrite Heq.
Qed.

Lemma writeRow_not_found dleft i x row :
  list_find (at_left dleft) row = None → writeRow dleft i x row = row.
Proof. intros Hfind. unfold writeRow. by rewrite Hfind. Qed.

(** X3. Hovering the same segment again leaves the world as the first hover
    made it, also when the hover is in another column than the drag, where
    the handler runs the swap again and calls [setState] again: the swap of
    a segment that is already in place writes what is there. *)
Theorem hover_again_same_world
    (events events' : list Event) (hover : Position) (hoverData : option Event)
    (dragEvent : Item) (w w1 : World) (drag : Position) (dlevel hlevel : nat)
    (rowd rowh : list Segment) (di hi : nat) (d h : Segment) :
  st_insertedOutsideEvent (state w) = true ∨
  item_type dragEvent ≠ Some "outsideEvent" →
  RBC_DRAG_POS w = Some drag →
  _posEq drag hover = false →
  pos_level drag = Some dlevel →
  pos_level hover = Some hlevel →
  st_levels (state w) !! dlevel = Some rowd →
  list_find (at_left (pos_left drag)) rowd = Some (di, d) →
  st_levels (state w) !! hlevel = Some rowh →
  list_find (at_left (pos_left drag)) rowh = Some (hi, h) →
  DateContentRowWrapper.handleSegmentHover withLevels cuid Array_sort
    events hover hoverData dragEvent w = Some (w1, [setState]) →
  DateContentRowWrapper.handleSegmentHover withLevels cuid Array_sort
    events' hover hoverData dragEvent w1
  = Some (w1, if bool_decide (pos_left hover = pos_left drag) then [] else [setState]).
Proof.
  intros Hguard Hdrag Hneq Hdl Hhl Hrowd Hd Hrowh Hh Hfirst.
  assert (Hguard1 : st_insertedOutsideEvent (state w1) = true ∨
                    item_type dragEvent ≠ Some "outsideEvent")
    by (by eapply hover_passes_outside_insert).
  unfold DateContentRowWrapper.handleSegmentHover in Hfirst.
  rewrite (not_first_outside_hover _ _ Hguard), Hdrag in Hfirst. simpl in Hfirst.
  rewrite Hneq in Hfirst.
  destruct (swapSegments drag hover _) as [levels1|] eqn:Hswap; [|done].
  simpl in Hfirst. injection Hfirst as <-.
  unfold DateContentRowWrapper.handleSegmentHover.
  rewrite (not_first_outside_hover _ _ Hguard1). simpl.
  set (drag1 := mkPosition (pos_level hover) (pos_left drag) (pos_span drag)).
  assert (Heq1 : _posEq drag1 hover = bool_decide (pos_left hover = pos_left drag)).
  { unfold _posEq. simpl. rewrite (bool_decide_eq_true_2 (pos_level hover = _)) by done.
    rewrite andb_true_r. apply bool_decide_ext. split; congruence. }
  rewrite Heq1. case_bool_decide as Hleft; [done|].
  assert (Hd_left : seg_left d = pos_left drag)
    by (by apply list_find_Some in Hd as (_ & ? & _)).
  assert (Hh_left : seg_left h = pos_left drag)
    by (by apply list_find_Some in Hh as (_ & ? & _)).
  set (dleft := pos_left drag) in *.
  set (entry := λ (i : nat) (row : list Segment),
         if decide (i = hlevel)
         then with_isHidden true (cs_seg (cellSeg dleft rowd))
         else if decide (i = dlevel)
              then cs_seg (cellSeg dleft rowh)
              else cs_seg (cellSeg dleft row)).
  assert (Hrows1 : ∀ i row, st_levels (state w) !! i = Some row →
            levels1 !! i = Some (writeRow dleft i (entry i row) row))
    by (intros i row Hrow; by eapply swapSegments_lookup).
  assert (Hentry : ∀ i row k s,
            list_find (at_left dleft) row = Some (k, s) →
            seg_left (entry i row) = dleft ∧
            seg_isHidden (entry i row) = Some (bool_decide (i = hlevel))).
  { intros i row k s Hfind. unfold entry.
    destruct (decide (i = hlevel)) as [->|Hih].
    - rewrite (cellSeg_found _ _ _ _ Hd). by rewrite bool_decide_eq_true_2.
    - rewrite (bool_decide_eq_false_2 _ Hih).
      destruct (decide (i = dlevel)) as [->|Hid].
      + by rewrite (cellSeg_found _ _ _ _ Hh).
      + rewrite (cellSeg_found _ _ _ _ Hfind).
        by apply list_find_Some in Hfind as (_ & ? & _). }
  pose proof (Hrows1 _ _ Hrowh) as Hrowh1.
  assert (Hswap2 : swapSegments drag1 hover levels1 = Some levels1).
  { destruct (swapSegments drag1 hover levels1) as [levels2|] eqn:Hswap2.
    - f_equal. apply list_eq. intros i.
      destruct (st_levels (state w) !! i) as [row|] eqn:Hrow.
      + rewrite (swapSegments_lookup drag1 hover levels1 levels2 hlevel hlevel
                   _ _ i _ Hswap2 Hhl Hhl Hrowh1 Hrowh1 (Hrows1 _ _ Hrow)).
        rewrite (Hrows1 _ _ Hrow). f_equal.
        change (pos_left drag1) with dleft.
        destruct (list_find (at_left dleft) row) as [[k s]|] eqn:Hfind.
        * destruct (Hentry i _ _ _ Hfind) as (Hx_left & Hx_hidden).
          rewrite writeRow_twice by done.
          apply writeRow_ext.
          destruct (decide (i = hlevel)) as [->|Hih].
          -- destruct (Hentry hlevel _ _ _ Hh) as (Hxh_left & Hxh_hidden).
             rewrite (writeRow_found _ _ _ _ _ _ Hh Hxh_left).
             rewrite Hrowh in Hrow. injection Hrow as <-.
             rewrite (bool_decide_eq_true_2 _ (eq_refl hlevel)) in Hxh_hidden.
             destruct (entry hlevel rowh). simpl in *.
             unfold with_level, with_isHidden. simpl. by rewrite Hxh_hidden.
          -- rewrite (writeRow_found _ _ _ _ _ _ Hfind Hx_left).
             rewrite (bool_decide_eq_false_2 _ Hih) in Hx_hidden.
             destruct (entry i row). simpl in *.
             unfold with_level, with_isHidden. simpl. by rewrite Hx_hidden.
        * rewrite (writeRow_not_found _ _ (entry i row) row Hfind).
          apply (writeRow_not_found _ _ _ row Hfind).
      + apply lookup_ge_None in Hrow.
        rewrite !lookup_ge_None_2; [done|..].
        * by rewrite (swapSegments_length _ _ _ _ Hswap).
        * rewrite (swapSegments_length _ _ _ _ Hswap2).
          by rewrite (swapSegments_length _ _ _ _ Hswap).
    - exfalso. unfold swapSegments in Hswap2. simpl in Hswap2.
      rewrite Hhl in Hswap2. simpl in Hswap2.
      rewrite !list_lookup_fmap, Hrowh1 in Hswap2. done. }
  simpl. change (pos_left drag) with dleft. rewrite Hswap2. done.
Qed.

End SwapTwice.

(** ** Exceptions and dead ends of the row handlers *)

Section RowEdges.

Import DateContentRowWrapper.

Variable withLevels : list Event → Levels.
Variable cuid : nat → string.
Variable Array_sort : (Event → Event → Z) → list Event → list Event.

#[local] Abbreviation handleSegmentHover :=
  (DateContentRowWrapper.handleSegmentHover withLevels cuid Array_sort).

Lemma swapSegments_None drag hover levels :
  swapSegments drag hover levels = None ↔
  ¬ on_level drag levels ∨ ¬ on_level hover levels.
Proof.
  unfold swapSegments, on_level.
  destruct (pos_level drag) as [dl|]; simpl.
  2:{ split; [intros _; left; by intros [? ?] | done]. }
  rewrite list_lookup_fmap.
  destruct (levels !! dl) as [rowd|]; simpl.
  2:{ split; [intros _; left; by intros [? ?] | done]. }
  destruct (pos_level hover) as [hl|]; simpl.
  2:{ split; [intros _; right; by intros [? ?] | done]. }
  rewrite list_lookup_fmap.
  destruct (levels !! hl) as [rowh|]; simpl.
  - split; [done|]. intros [H|H]; exfalso; apply H; by eexists.
  - split; [intros _; right; by intros [? ?] | done].
Qed.

(** X4. A hover that is not the first of an outside drag throws exactly
    when no drag position is tracked, or when the tracked position is not
    the hover and one of the two names no level of the layout. *)
Theorem hover_throws_iff
    (events : list Event) (hover : Position) (hoverData : option Event)
    (dragEvent : Item) (w : World) :
  st_insertedOutsideEvent (state w) = true ∨
  item_type dragEvent ≠ Some "outsideEvent" →
  handleSegmentHover events hover hoverData dragEvent w = None ↔
  RBC_DRAG_POS w = None ∨
  ∃ drag, RBC_DRAG_POS w = Some drag ∧ _posEq drag hover = false ∧
          (¬ on_level drag (st_levels (state w)) ∨
           ¬ on_level hover (st_levels (state w))).
Proof.
  intros Hguard. unfold DateContentRowWrapper.handleSegmentHover.
  rewrite (not_first_outside_hover _ _ Hguard).
  destruct (RBC_DRAG_POS w) as [drag|]; simpl.
  2:{ split; [by left | done]. }
  destruct (_posEq drag hover) eqn:Heq.
  - split; [done|]. intros [?|(? & [= <-] & ? & _)]; congruence.
  - destruct (swapSegments drag hover _) as [levels'|] eqn:Hswap; simpl.
    + split; [done|]. intros [?|(? & [= <-] & _ & Hlevel)]; [done|].
      apply swapSegments_None in Hlevel. congruence.
    + split; [|done]. intros _. right. exists drag.
      split; [done|]. split; [done|]. by apply swapSegments_None.
Qed.

Lemma find_none_in_column level dleft span row :
  list_find (at_left dleft) row = None →
  List.find (at_drag_left (mkPosition level dleft span)) row = None.
Proof.
  intros Hnone. apply list_find_None in Hnone.
  induction row as [|x row IH]; [done|].
  apply Forall_cons in Hnone as [Hx Hrow]. simpl.
  unfold at_drag_left at 1. simpl.
  rewrite bool_decide_eq_false_2 by (intros Heq; by apply Hx).
  by apply IH.
Qed.

(** X5. When the row of the hover holds no segment in the column of the
    drag, the hover puts an object with only a level in the place of the
    dragged segment, leaves the row of the hover as it is and tracks a
    position that holds no segment; the drop that follows invokes no
    callback and leaves the shared drag position set. *)
Theorem hover_empty_column_loses_segment
    (events : list Event) (hover drop : Position) (hoverData : Event)
    (dragEvent : Item) (w : World) (drag : Position) (dlevel hlevel : nat)
    (rowd rowh : list Segment) (di : nat) (d : Segment) :
  st_insertedOutsideEvent (state w) = true ∨
  item_type dragEvent ≠ Some "outsideEvent" →
  RBC_DRAG_POS w = Some drag →
  pos_level drag = Some dlevel →
  pos_level hover = Some hlevel →
  st_levels (state w) !! dlevel = Some rowd →
  list_find (at_left (pos_left drag)) rowd = Some (di, d) →
  st_levels (state w) !! hlevel = Some rowh →
  list_find (at_left (pos_left drag)) rowh = None →
  ∃ w1 w2,
    handleSegmentHover events hover (Some hoverData) dragEvent w
    = Some (w1, [setState]) ∧
    st_levels (state w1) !! dlevel
    = Some (<[di := with_level (Some dlevel) no_props]> rowd) ∧
    st_levels (state w1) !! hlevel = Some rowh ∧
    RBC_DRAG_POS w1 = Some (mkPosition (Some hlevel) (pos_left drag) (pos_span drag)) ∧
    handleSegmentDrop true drop w1 = Some (w2, [setState]) ∧
    RBC_DRAG_POS w2 = RBC_DRAG_POS w1.
Proof.
  intros Hguard Hdrag Hdl Hhl Hrowd Hd Hrowh Hh.
  assert (Hne : dlevel ≠ hlevel) by (intros ->; congruence).
  assert (Hneq : _posEq drag hover = false).
  { unfold _posEq. rewrite (bool_decide_eq_false_2 (pos_level drag = _)).
    - apply andb_false_r.
    - rewrite Hdl, Hhl. congruence. }
  destruct (swapSegments drag hover (st_levels (state w))) as [levels1|] eqn:Hswap.
  2:{ apply swapSegments_None in Hswap as [H|H]; exfalso; apply H; unfold on_level.
      - rewrite Hdl. simpl. by rewrite Hrowd.
      - rewrite Hhl. simpl. by rewrite Hrowh. }
  pose proof (swapSegments_lookup _ _ _ _ _ _ _ _ _ _ Hswap Hdl Hhl Hrowd Hrowh Hrowd)
    as Hrowd1.
  pose proof (swapSegments_lookup _ _ _ _ _ _ _ _ _ _ Hswap Hdl Hhl Hrowd Hrowh Hrowh)
    as Hrowh1.
  rewrite decide_False in Hrowd1 by done. rewrite decide_True in Hrowd1 by done.
  unfold writeRow in Hrowd1, Hrowh1. rewrite Hd in Hrowd1. rewrite Hh in Hrowh1.
  unfold cellSeg in Hrowd1. rewrite Hh in Hrowd1. simpl in Hrowd1.
  eexists _, _. split.
  { unfold DateContentRowWrapper.handleSegmentHover.
    rewrite (not_first_outside_hover _ _ Hguard), Hdrag. simpl.
    rewrite Hneq, Hswap. simpl. reflexivity. }
  simpl. split; [exact Hrowd1|]. split; [exact Hrowh1|].
  split; [by rewrite Hhl|].
  unfold handleSegmentDrop. simpl. rewrite Hhl. simpl. rewrite Hrowh1. simpl.
  rewrite (find_none_in_column _ _ _ _ Hh). simpl. split; reflexivity.
Qed.

(** X6. A drop that throws does so because a hover was recorded while the
    tracked drag position is missing or names no level; without a recorded
    hover it never throws. *)
Theorem drop_throws_iff (has_onEventReorder : bool) (drop : Position) (w : World) :
  handleSegmentDrop has_onEventReorder drop w = None ↔
  is_Some (st_hoverData (state w)) ∧
  (RBC_DRAG_POS w = None ∨
   ∃ drag, RBC_DRAG_POS w = Some drag ∧ ¬ on_level drag (st_levels (state w))).
Proof.
  unfold handleSegmentDrop, on_level.
  destruct (st_hoverData (state w)) as [hd|].
  2:{ split; [done|]. by intros [[? ?] _]. }
  destruct (RBC_DRAG_POS w) as [drag|]; simpl.
  2:{ split; [|done]. intros _. split; [by eexists | by left]. }
  destruct (pos_level drag) as [dl|] eqn:Hdl; simpl.
  2:{ split; [|done]. intros _. split; [by eexists|]. right. exists drag.
      split; [done|]. rewrite Hdl. by intros [? ?]. }
  destruct (st_levels (state w) !! dl) as [row|] eqn:Hrow; simpl.
  - split.
    + by destruct (List.find _ row).
    + intros [_ [?|(? & [= <-] & Hno)]]; [done|]. exfalso. apply Hno.
      rewrite Hdl. simpl. rewrite Hrow. by eexists.
  - split; [|done]. intros _. split; [by eexists|]. right. exists drag.
    split; [done|]. rewrite Hdl. simpl. rewrite Hrow. by intros [? ?].
Qed.

(** X7. A drop with a recorded hover whose tracked drag position holds no
    segment invokes no callback, even when the context has one: it empties
    [drag], [hover] and [hoverData] with one [setState] and leaves the
    shared drag position set, and so does every later drop. *)
Theorem drop_on_stale_position
    (has_onEventReorder : bool) (drop drop' : Position) (w : World)
    (hoverData : Event) (drag : Position) (dlevel : nat) (row : list Segment) :
  st_hoverData (state w) = Some hoverData →
  RBC_DRAG_POS w = Some drag →
  pos_level drag = Some dlevel →
  st_levels (state w) !! dlevel = Some row →
  List.find (at_drag_left drag) row = None →
  let w' := set_state (mkState None None None (st_insertedOutsideEvent (state w))
                         (st_levels (state w))) w in
  handleSegmentDrop has_onEventReorder drop w = Some (w', [setState]) ∧
  RBC_DRAG_POS w' = Some drag ∧
  handleSegmentDrop has_onEventReorder drop' w' = Some (w', []).
Proof.
  intros Hhover Hdrag Hdl Hrow Hfind w'. unfold handleSegmentDrop.
  rewrite Hhover, Hdrag. simpl. rewrite Hdl. simpl. rewrite Hrow. simpl.
  by rewrite Hfind.
Qed.

(** [findDragData] returns the first segment, level by level, that holds
    the event, if there is one. *)
Lemma findDragData_None data levels :
  findDragData data levels = None ↔
  Forall (Forall (λ seg, holds data seg = false)) levels.
Proof.
  induction levels as [|lvl levels IH]; simpl.
  - split; [by constructor | done].
  - destruct (List.find (holds data) lvl) as [seg|] eqn:Hfind.
    + split; [done|]. intros Hall. apply Forall_cons in Hall as [Hlvl _].
      apply find_some in Hfind as [Hin Hholds].
      apply list_elem_of_In in Hin.
      rewrite Forall_forall in Hlvl. specialize (Hlvl _ Hin). congruence.
    + rewrite IH. split.
      * intros Hrest. constructor; [|done].
        apply Forall_forall. intros seg Hin. apply list_elem_of_In in Hin.
        pose proof (find_none _ _ Hfind _ Hin). done.
      * by intros [_ ?]%Forall_cons.
Qed.

(** X8. The first hover of an outside drag throws exactly when the item has
    no [position], when nothing is hovered, or when no segment of the levels
    that [withLevels] returns holds the new event. *)
Theorem first_outside_hover_throws_iff
    (events : list Event) (hover : Position) (hoverData : option Event)
    (dragEvent : Item) (w : World) :
  st_insertedOutsideEvent (state w) = false →
  item_type dragEvent = Some "outsideEvent" →
  handleSegmentHover events hover hoverData dragEvent w = None ↔
  item_position dragEvent = None ∨ hoverData = None ∨
  ∃ position hd,
    item_position dragEvent = Some position ∧ hoverData = Some hd ∧
    let data := provisional cuid (item_data dragEvent) hd (ip_span position) w in
    Forall (Forall (λ seg, holds data seg = false))
      (withLevels (Array_sort byWeight (events ++ [data]))).
Proof.
  intros Hins Htype. unfold DateContentRowWrapper.handleSegmentHover.
  rewrite Hins, Htype. simpl.
  destruct (item_position dragEvent) as [position|]; simpl.
  2:{ split; [by left | done]. }
  destruct hoverData as [hd|]; simpl.
  2:{ split; [by right; left | done]. }
  destruct (findDragData _ _) as [seg|] eqn:Hfind; simpl.
  - split; [done|]. intros [?|[?|(? & ? & [= <-] & [= <-] & Hall)]]; [done..|].
    apply findDragData_None in Hall. congruence.
  - split; [|done]. intros _. right. right. exists position, hd.
    split; [done|]. split; [done|]. by apply findDragData_None.
Qed.

(** X9. The first hover of an outside drag records neither the hover nor
    the shared drag position: a drop right after it invokes nothing when no
    hover was recorded before, and when no drag position is tracked every
    later hover throws. *)
Theorem first_outside_hover_records_no_hover
    (events : list Event) (hover : Position) (hoverData : option Event)
    (dragEvent : Item) (w w1 : World) (effects : list Effect) :
  st_insertedOutsideEvent (state w) = false →
  item_type dragEvent = Some "outsideEvent" →
  handleSegmentHover events hover hoverData dragEvent w = Some (w1, effects) →
  RBC_DRAG_POS w1 = RBC_DRAG_POS w ∧
  st_hover (state w1) = st_hover (state w) ∧
  st_hoverData (state w1) = st_hoverData (state w) ∧
  (st_hoverData (state w) = None →
   ∀ has_onEventReorder drop,
     handleSegmentDrop has_onEventReorder drop w1 = Some (w1, [])) ∧
  (RBC_DRAG_POS w = None →
   ∀ events' hover' hoverData' dragEvent',
     handleSegmentHover events' hover' hoverData' dragEvent' w1 = None).
Proof.
  intros Hins Htype. unfold DateContentRowWrapper.handleSegmentHover at 1.
  rewrite Hins, Htype. simpl.
  destruct (item_position dragEvent) as [position|]; [|done]. simpl.
  destruct hoverData as [hd|]; [|done]. simpl.
  destruct (findDragData _ _) as [seg|]; [|done]. simpl.
  intros [= <- _]. simpl. split; [done|]. split; [done|]. split; [done|]. split.
  - intros Hnone ? ?. unfold handleSegmentDrop. simpl. by rewrite Hnone.
  - intros Hnone ? ? ? ?. unfold DateContentRowWrapper.handleSegmentHover.
    simpl. by rewrite Hnone.
Qed.

End RowEdges.

(** ** Calendar fields of dates *)

Section CivilDates.

Lemma all_from_spec f lo n :
  all_from f lo n = true → ∀ z, lo ≤ z < lo + n → f z = true.
Proof.
  unfold all_from. intros Hall z Hz.
  rewrite iter_nat_of_Z in Hall by lia.
  assert (Hz' : lo ≤ z < lo + Z.of_nat (Z.abs_nat n)) by lia.
  clear Hz. revert Hall Hz'. generalize (Z.abs_nat n). clear n.
  intros n.
  set (step := λ x : Z * bool, let '(i, ok) := x in (i + 1, ok && f i)).
  assert (Hfst : ∀ k, (nat_rect (λ _, (Z * bool)%type) (lo, true) (λ _, step) k).1
                      = lo + Z.of_nat k).
  { induction k as [|k IH]; simpl; [lia|].
    destruct (nat_rect _ _ _ k) as [i ok]. simpl in *. lia. }
  induction n as [|n IH]; intros Hall Hz; [lia|].
  simpl in Hall. specialize (Hfst n).
  destruct (nat_rect _ _ _ n) as [i ok]. simpl in *.
  apply andb_true_iff in Hall as [Hok Hfi].
  destruct (decide (z = lo + Z.of_nat n)) as [->|Hne].
  - by subst i.
  - apply IH; [done|lia].
Qed.

Lemma days_from_civil_era y m d k :
  DateFns.days_from_civil (y + 400 * k) m d
  = DateFns.days_from_civil y m d + 146097 * k.
Proof.
  unfold DateFns.days_from_civil. cbv zeta.
  set (y0 := if m <=? 2 then y - 1 else y).
  replace (if m <=? 2 then y + 400 * k - 1 else y + 400 * k) with (y0 + k * 400)
    by (subst y0; destruct (m <=? 2); lia).
  rewrite Z.div_add by lia.
  replace (y0 + k * 400 - (y0 `div` 400 + k) * 400) with (y0 - y0 `div` 400 * 400)
    by lia.
  lia.
Qed.

Lemma civil_from_days_era z k :
  JsDate.civil_from_days (z + 146097 * k)
  = let '(y, m, d) := JsDate.civil_from_days z in (y + 400 * k, m, d).
Proof.
  unfold JsDate.civil_from_days. simpl.
  replace (z + 146097 * k + 719468) with (z + 719468 + k * 146097) by lia.
  rewrite Z.div_add by lia.
  set (era := (z + 719468) `div` 146097).
  replace (z + 719468 + k * 146097 - (era + k) * 146097)
    with (z + 719468 - era * 146097) by lia.
  set (doe := z + 719468 - era * 146097).
  set (yoe := (doe - doe `div` 1460 + doe `div` 36524 - doe `div` 146096) `div` 365).
  set (doy := doe - (365 * yoe + yoe `div` 4 - yoe `div` 100)).
  set (mp := (5 * doy + 2) `div` 153).
  destruct (mp <? 10); (destruct (_ <=? 2); f_equal; f_equal; lia).
Qed.

Lemma month_check_cycle r mn :
  0 ≤ r < 400 → 0 ≤ mn < 12 → month_check r mn = true.
Proof.
  intros Hr Hmn.
  assert (Hall : all_from (λ r, all_from (month_check r) 0 12) 0 400 = true)
    by (vm_compute; reflexivity).
  apply (all_from_spec _ 0 12); [|lia].
  apply (all_from_spec _ 0 400 Hall). lia.
Qed.

(** The year of a day of the cycle of 400 years: the year begins on or
    before the day, and the year after begins after it. *)
Lemma year_of_era doe :
  0 ≤ doe ≤ 146096 →
  let yoe := (doe - doe `div` 1460 + doe `div` 36524 - doe `div` 146096) `div` 365 in
  0 ≤ yoe ≤ 399 ∧
  365 * yoe + yoe `div` 4 - yoe `div` 100 ≤ doe ∧
  (doe < 365 * (yoe + 1) + (yoe + 1) `div` 4 - (yoe + 1) `div` 100
   ∨ yoe = 399).
Proof. intros H yoe. subst yoe. Z.div_mod_to_equations. lia. Qed.

(** Every day passes the check of its civil date. *)
Lemma day_check_holds z : day_check z = true.
Proof.
  unfold day_check, JsDate.civil_from_days. cbv zeta.
  set (era := (z + 719468) `div` 146097).
  set (doe := z + 719468 - era * 146097).
  assert (Hdoe : 0 ≤ doe ≤ 146096) by (subst doe era; Z.div_mod_to_equations; lia).
  destruct (year_of_era doe Hdoe) as (Hyoe & Hlo & Hhi). cbv zeta in Hyoe, Hlo, Hhi.
  set (yoe := (doe - doe `div` 1460 + doe `div` 36524 - doe `div` 146096) `div` 365) in *.
  set (doy := doe - (365 * yoe + yoe `div` 4 - yoe `div` 100)).
  assert (Hdoy : 0 ≤ doy ≤ 365) by (subst doy; Z.div_mod_to_equations; lia).
  set (mp := (5 * doy + 2) `div` 153).
  assert (Hmp : 0 ≤ mp ≤ 11 ∧ 153 * mp ≤ 5 * doy + 2 < 153 * (mp + 1))
    by (subst mp; Z.div_mod_to_equations; lia).
  set (d := doy - (153 * mp + 2) `div` 5 + 1).
  assert (Hd : 1 ≤ d ∧ doy < (153 * (mp + 1) + 2) `div` 5
               ∧ (153 * mp + 2) `div` 5 + d - 1 = doy)
    by (subst d; Z.div_mod_to_equations; lia).
  assert (Hera : (yoe + era * 400) `div` 400 = era)
    by (symmetry; apply (Z.div_unique _ 400 era yoe); lia).
  assert (Hz : z = era * 146097 + doe - 719468) by (subst doe; lia).
  assert (Hdoy' : doe = yoe * 365 + yoe `div` 4 - yoe `div` 100 + doy)
    by (subst doy; lia).
  clearbody era doe yoe doy mp d.
  set (m := if mp <? 10 then mp + 3 else mp - 9).
  assert (Hm : 1 ≤ m ≤ 12 ∧ (mp < 10 ∧ m = mp + 3 ∨ 10 ≤ mp ∧ m = mp - 9))
    by (subst m; destruct (Z.ltb_spec mp 10); lia).
  clearbody m.
  set (y := if m <=? 2 then yoe + era * 400 + 1 else yoe + era * 400).
  assert (Hy : m ≤ 2 ∧ y = yoe + era * 400 + 1 ∨ 2 < m ∧ y = yoe + era * 400)
    by (subst y; destruct (Z.leb_spec m 2); lia).
  clearbody y.
  assert (Hback : DateFns.days_from_civil y m d = z).
  { unfold DateFns.days_from_civil. cbv zeta.
    replace (if m <=? 2 then y - 1 else y) with (yoe + era * 400)
      by (destruct (Z.leb_spec m 2); lia).
    replace (if 2 <? m then m - 3 else m + 9) with mp
      by (destruct (Z.ltb_spec 2 m); lia).
    rewrite Hera.
    replace (yoe + era * 400 - era * 400) with yoe by lia.
    lia. }
  assert (Hnext : z < DateFns.days_from_civil ((12 * y + m) `div` 12)
                        ((12 * y + m) `mod` 12 + 1) 1).
  { destruct (decide (m = 12)) as [->|Hm12].
    - replace ((12 * y + 12) `div` 12) with (y + 1)
        by (apply (Z.div_unique _ 12 (y + 1) 0); lia).
      replace ((12 * y + 12) `mod` 12) with 0
        by (apply (Z.mod_unique _ 12 (y + 1) 0); lia).
      unfold DateFns.days_from_civil. cbv zeta.
      change (0 + 1 <=? 2) with true. change (2 <? 0 + 1) with false. cbv iota.
      replace (y + 1 - 1) with (yoe + era * 400) by lia.
      rewrite Hera. Z.div_mod_to_equations. lia.
    - replace ((12 * y + m) `div` 12) with y
        by (apply (Z.div_unique _ 12 y m); lia).
      replace ((12 * y + m) `mod` 12) with m
        by (apply (Z.mod_unique _ 12 y m); lia).
      unfold DateFns.days_from_civil. cbv zeta.
      destruct (Z.leb_spec (m + 1) 2) as [Hm2|Hm2].
      + replace (if 2 <? m + 1 then m + 1 - 3 else m + 1 + 9) with (mp + 1)
          by (destruct (Z.ltb_spec 2 (m + 1)); lia).
        replace (y - 1) with (yoe + era * 400) by lia.
        rewrite Hera. Z.div_mod_to_equations. lia.
      + replace (if 2 <? m + 1 then m + 1 - 3 else m + 1 + 9) with (m - 2)
          by (destruct (Z.ltb_spec 2 (m + 1)); lia).
        destruct (decide (m = 2)) as [->|Hm2'].
        * assert (y = yoe + era * 400 + 1) as -> by lia.
          destruct (decide (yoe = 399)) as [->|Hyoe'].
          -- replace ((399 + era * 400 + 1) `div` 400) with (era + 1)
               by (apply (Z.div_unique _ 400 (era + 1) 0); lia).
             Z.div_mod_to_equations. lia.
          -- destruct Hhi as [Hhi|?]; [|done].
             replace ((yoe + era * 400 + 1) `div` 400) with era
               by (apply (Z.div_unique _ 400 era (yoe + 1)); lia).
             Z.div_mod_to_equations. lia.
        * assert (y = yoe + era * 400) as -> by lia.
          rewrite Hera. replace (m - 2) with (mp + 1) by lia.
          Z.div_mod_to_equations. lia. }
  rewrite Hback, Z.eqb_refl.
  repeat (apply andb_true_intro; split); try done;
    first [apply Z.leb_le | apply Z.ltb_lt]; lia.
Qed.

(** The first of a month is read back as the first of that month, and the
    day before it lies in the month before. *)
Lemma civil_of_first y mn :
  0 ≤ mn < 12 →
  JsDate.civil_from_days (DateFns.days_from_civil y (mn + 1) 1) = (y, mn + 1, 1) ∧
  ∃ y' m' d',
    JsDate.civil_from_days (DateFns.days_from_civil y (mn + 1) 1 - 1) = (y', m', d') ∧
    12 * y' + (m' - 1) = 12 * y + mn - 1 ∧ 1 ≤ m' ≤ 12.
Proof.
  intros Hmn.
  assert (Hr : 0 ≤ y `mod` 400 < 400) by (apply Z.mod_pos_bound; lia).
  assert (Hy : y = y `mod` 400 + 400 * (y `div` 400))
    by (pose proof (Z.div_mod y 400); lia).
  pose proof (month_check_cycle _ mn Hr Hmn) as Hcheck.
  unfold month_check in Hcheck.
  revert Hy Hcheck. generalize (y `mod` 400), (y `div` 400). intros r q -> Hcheck.
  rewrite days_from_civil_era.
  replace (DateFns.days_from_civil r (mn + 1) 1 + 146097 * q - 1)
    with (DateFns.days_from_civil r (mn + 1) 1 - 1 + 146097 * q) by lia.
  rewrite !civil_from_days_era.
  destruct (JsDate.civil_from_days (DateFns.days_from_civil r (mn + 1) 1))
    as [[y0 m0] d0].
  destruct (JsDate.civil_from_days (DateFns.days_from_civil r (mn + 1) 1 - 1))
    as [[y1 m1] d1].
  repeat (apply andb_true_iff in Hcheck as [Hcheck ?]).
  split.
  - f_equal; [f_equal|]; lia.
  - eexists _, _, _. split; [reflexivity|]. lia.
Qed.

(** Every day is the day of its civil date, in a month from 1 to 12, and
    comes before the first of the month after. *)
Lemma civil_of_day z :
  ∃ y m d,
    JsDate.civil_from_days z = (y, m, d) ∧ 1 ≤ m ≤ 12 ∧
    DateFns.days_from_civil y m 1 ≤ z <
    DateFns.days_from_civil ((12 * y + m) `div` 12) ((12 * y + m) `mod` 12 + 1) 1.
Proof.
  pose proof (day_check_holds z) as Hcheck. unfold day_check in Hcheck.
  destruct (JsDate.civil_from_days z) as [[y m] d].
  repeat (apply andb_true_iff in Hcheck as [Hcheck ?]).
  eexists _, _, _. split; [reflexivity|]. split; [lia|].
  assert (Hd : DateFns.days_from_civil y m d = DateFns.days_from_civil y m 1 + (d - 1))
    by (unfold DateFns.days_from_civil; lia).
  lia.
Qed.

End CivilDates.

(** ** The month shown by the calendar *)

Section MonthWindow.

Lemma day_number_of_days x :
  JsDate.day_number (x * DateFns.MILLISECONDS_IN_DAY) = x.
Proof. unfold JsDate.day_number, DateFns.MILLISECONDS_IN_DAY. apply Z.div_mul. lia. Qed.

Lemma fields_of_first n :
  JsDate.getFullYear (firstOfMonth n) = n `div` 12 ∧
  JsDate.getMonth (firstOfMonth n) = n `mod` 12.
Proof.
  unfold JsDate.getFullYear, JsDate.getMonth, firstOfMonth.
  rewrite day_number_of_days.
  assert (Hmn : 0 ≤ n `mod` 12 < 12) by (apply Z.mod_pos_bound; lia).
  destruct (civil_of_first (n `div` 12) _ Hmn) as [-> _]. simpl. lia.
Qed.

Lemma fields_of_last n :
  JsDate.getFullYear (lastOfMonth n) = n `div` 12 ∧
  JsDate.getMonth (lastOfMonth n) = n `mod` 12.
Proof.
  unfold JsDate.getFullYear, JsDate.getMonth, lastOfMonth, firstOfMonth.
  replace (DateFns.days_from_civil ((n + 1) `div` 12) ((n + 1) `mod` 12 + 1) 1
           * DateFns.MILLISECONDS_IN_DAY - DateFns.MILLISECONDS_IN_DAY)
    with ((DateFns.days_from_civil ((n + 1) `div` 12) ((n + 1) `mod` 12 + 1) 1 - 1)
          * DateFns.MILLISECONDS_IN_DAY) by lia.
  rewrite day_number_of_days.
  assert (Hmn : 0 ≤ (n + 1) `mod` 12 < 12) by (apply Z.mod_pos_bound; lia).
  destruct (civil_of_first ((n + 1) `div` 12) _ Hmn)
    as (_ & y' & m' & d' & -> & Hn & Hm).
  simpl.
  assert (Hn' : n = 12 * y' + (m' - 1))
    by (pose proof (Z.div_mod (n + 1) 12); lia).
  split.
  - apply (Z.div_unique n 12 y' (m' - 1)); lia.
  - apply (Z.mod_unique n 12 y' (m' - 1)); lia.
Qed.

Lemma make_first y m :
  plain_year y → JsDate.make y m 1 = firstOfMonth (12 * y + m).
Proof.
  intros Hplain. unfold JsDate.make, firstOfMonth.
  replace ((0 <=? y) && (y <=? 99)) with false
    by (symmetry; apply andb_false_iff; destruct Hplain; lia).
  replace (12 * y + m) with (m + y * 12) by lia.
  rewrite Z.div_add, Z.mod_add by lia.
  f_equal. replace (y + m `div` 12) with (m `div` 12 + y) by lia. lia.
Qed.

Lemma make_last y m :
  plain_year y → JsDate.make y (m + 1) 0 = lastOfMonth (12 * y + m).
Proof.
  intros Hplain. unfold JsDate.make, lastOfMonth, firstOfMonth.
  replace ((0 <=? y) && (y <=? 99)) with false
    by (symmetry; apply andb_false_iff; destruct Hplain; lia).
  replace (12 * y + m + 1) with (m + 1 + y * 12) by lia.
  rewrite Z.div_add, Z.mod_add by lia.
  replace (y + (m + 1) `div` 12) with ((m + 1) `div` 12 + y) by lia. lia.
Qed.

(** A month has a first day and a last day, and the next month begins the
    day after the last. *)
Lemma first_before_last n :
  firstOfMonth n ≤ lastOfMonth n ∧
  lastOfMonth n + DateFns.MILLISECONDS_IN_DAY = firstOfMonth (n + 1).
Proof.
  split; [|unfold lastOfMonth; lia].
  unfold lastOfMonth, firstOfMonth.
  set (z := DateFns.days_from_civil (n `div` 12) (n `mod` 12 + 1) 1).
  destruct (civil_of_day z) as (y & m & d & Hcivil & Hm & _ & Hnext).
  assert (Hmn : 0 ≤ n `mod` 12 < 12) by (apply Z.mod_pos_bound; lia).
  destruct (civil_of_first (n `div` 12) _ Hmn) as [Hfirst _].
  fold z in Hfirst. rewrite Hfirst in Hcivil. injection Hcivil as <- <- <-.
  replace (12 * (n `div` 12) + (n `mod` 12 + 1)) with (n + 1) in Hnext
    by (pose proof (Z.div_mod n 12); lia).
  unfold DateFns.MILLISECONDS_IN_DAY. lia.
Qed.

(** The month number is made of the year and the month. *)
Lemma month_number n : 12 * (n `div` 12) + n `mod` 12 = n.
Proof. pose proof (Z.div_mod n 12). lia. Qed.

Lemma next_action_tests :
  bool_decide (Some navigate.NEXT = Some navigate.PREVIOUS) = false ∧
  bool_decide (Some navigate.PREVIOUS = Some navigate.NEXT) = false ∧
  bool_decide (Some navigate.DATE = Some navigate.NEXT) = false ∧
  bool_decide (Some navigate.DATE = Some navigate.PREVIOUS) = false.
Proof. done. Qed.

(** X10. When the state shows a whole month, of a year that is not from 0
    to 99, the action NEXT makes it show the whole month after and the
    action PREV the whole month before, over the ends of years as within
    them, whatever the date; [activeCalendar] and the rest of the state
    stay. *)
Theorem month_change_next_previous (date : Instant) (st : Calendar.State) (n : Z) :
  window n st →
  plain_year (n `div` 12) →
  let next := fst (Calendar.handleCalendarMonthChange date (Some navigate.NEXT) st) in
  let prev := fst (Calendar.handleCalendarMonthChange date (Some navigate.PREVIOUS) st) in
  next = Calendar.mkState (Calendar.selected st) (Calendar.switchMonthHeader st)
           (Calendar.selectedList st) (firstOfMonth (n + 1)) (lastOfMonth (n + 1))
           (Calendar.activeCalendar st) ∧
  prev = Calendar.mkState (Calendar.selected st) (Calendar.switchMonthHeader st)
           (Calendar.selectedList st) (firstOfMonth (n - 1)) (lastOfMonth (n - 1))
           (Calendar.activeCalendar st).
Proof.
  intros [Hs He] Hplain next prev. subst next prev.
  unfold Calendar.handleCalendarMonthChange.
  rewrite Hs, He.
  destruct (fields_of_first n) as [Hys Hms].
  destruct (fields_of_last n) as [Hye Hme].
  destruct next_action_tests as (Hnp & Hpn & _).
  split.
  - rewrite (bool_decide_eq_true_2 (Some navigate.NEXT = Some navigate.NEXT)) by done.
    rewrite Hnp. rewrite (bool_decide_eq_false_2 (Some navigate.NEXT = None)) by done.
    rewrite !andb_false_r. cbn [fst].
    rewrite Hys, Hms, Hye.
    rewrite make_first, make_last by done.
    replace (12 * (n `div` 12) + (n `mod` 12 + 1)) with (n + 1)
      by (pose proof (month_number n); lia).
    done.
  - rewrite Hpn.
    rewrite (bool_decide_eq_true_2 (Some navigate.PREVIOUS = Some navigate.PREVIOUS))
      by done.
    rewrite (bool_decide_eq_false_2 (Some navigate.PREVIOUS = None)) by done.
    rewrite !andb_false_r. cbn [fst].
    rewrite Hys, Hms, Hye.
    rewrite make_first, make_last by done.
    replace (12 * (n `div` 12) + (n `mod` 12 - 1)) with (n - 1)
      by (pose proof (month_number n); lia).
    done.
Qed.

End MonthWindow.

Section MonthMoves.

Lemma month_change_other_action (date : Instant) (a : string) (st : Calendar.State) :
  a ≠ navigate.NEXT → a ≠ navigate.PREVIOUS →
  Calendar.handleCalendarMonthChange date (Some a) st
  = (st, [Calendar.setState None]).
Proof.
  intros Hnext Hprev. unfold Calendar.handleCalendarMonthChange.
  rewrite (bool_decide_eq_false_2 (Some a = Some navigate.NEXT)) by congruence.
  rewrite (bool_decide_eq_false_2 (Some a = Some navigate.PREVIOUS)) by congruence.
  rewrite (bool_decide_eq_false_2 (Some a = None)) by done.
  rewrite !andb_false_r. by destruct st.
Qed.

Lemma month_change_null (date : Instant) (st : Calendar.State) (n : Z) :
  window n st →
  plain_year (n `div` 12) →
  fst (Calendar.handleCalendarMonthChange date None st)
  = if date <? firstOfMonth n then
      Calendar.mkState (Calendar.selected st) (Calendar.switchMonthHeader st)
        (Calendar.selectedList st) (firstOfMonth (n - 1)) (lastOfMonth (n - 1)) 1
    else if lastOfMonth n <? date then
      let n' := 12 * (n `div` 12) + Z.max (JsDate.getMonth date) (n `mod` 12 + 1) in
      Calendar.mkState (Calendar.selected st) (Calendar.switchMonthHeader st)
        (Calendar.selectedList st) (firstOfMonth n') (lastOfMonth n') 2
    else st.
Proof.
  intros [Hs He] Hplain. unfold Calendar.handleCalendarMonthChange.
  rewrite Hs, He.
  destruct (fields_of_first n) as [Hys Hms].
  destruct (fields_of_last n) as [Hye Hme].
  destruct (first_before_last n) as [Hle _].
  rewrite (bool_decide_eq_false_2 (None = Some navigate.NEXT)) by done.
  rewrite (bool_decide_eq_false_2 (None = Some navigate.PREVIOUS)) by done.
  rewrite (bool_decide_eq_true_2 (None = None)) by done.
  rewrite !andb_true_r.
  destruct (date <? firstOfMonth n) eqn:Hbefore.
  - apply Z.ltb_lt in Hbefore.
    replace (lastOfMonth n <? date) with false by (symmetry; apply Z.ltb_ge; lia).
    cbn [fst]. rewrite Hys, Hms, Hye, Hme.
    rewrite make_first by done.
    replace (JsDate.make (n `div` 12) (n `mod` 12) 0)
      with (JsDate.make (n `div` 12) (n `mod` 12 - 1 + 1) 0) by (f_equal; lia).
    rewrite make_last by done.
    replace (12 * (n `div` 12) + (n `mod` 12 - 1)) with (n - 1)
      by (pose proof (month_number n); lia).
    done.
  - destruct (lastOfMonth n <? date) eqn:Hafter.
    + cbn [fst]. rewrite Hys, Hms, Hye.
      replace (if n `mod` 12 <? JsDate.getMonth date
               then JsDate.getMonth date else n `mod` 12 + 1)
        with (Z.max (JsDate.getMonth date) (n `mod` 12 + 1))
        by (destruct (n `mod` 12 <? JsDate.getMonth date) eqn:Hlt;
            [apply Z.ltb_lt in Hlt | apply Z.ltb_ge in Hlt]; lia).
      by rewrite make_first, make_last by done.
    + cbn [fst]. rewrite <- Hs, <- He. by destruct st.
Qed.

(** X11. With no action (null), a date before the month shown moves the
    state to the whole month before and makes the first calendar active; a
    date after the first instant of the last day of the month shown makes
    the second calendar active and moves the state, within the year shown,
    to the month of the date if that month comes later in the year, and
    else to the month after the one shown; a date in between changes
    nothing. *)
Theorem month_change_without_action (date : Instant) (st : Calendar.State) (n : Z) :
  window n st →
  plain_year (n `div` 12) →
  let st' := fst (Calendar.handleCalendarMonthChange date None st) in
  (date < firstOfMonth n →
   window (n - 1) st' ∧ Calendar.activeCalendar st' = 1) ∧
  (lastOfMonth n < date →
   window (12 * (n `div` 12) + Z.max (JsDate.getMonth date) (n `mod` 12 + 1)) st' ∧
   Calendar.activeCalendar st' = 2) ∧
  (firstOfMonth n ≤ date ≤ lastOfMonth n → st' = st).
Proof.
  intros Hwin Hplain st'. subst st'.
  rewrite (month_change_null _ _ _ Hwin Hplain).
  destruct (first_before_last n) as [Hle _].
  split; [|split].
  - intros Hlt. rewrite (proj2 (Z.ltb_lt _ _) Hlt). done.
  - intros Hlt. rewrite (proj2 (Z.ltb_ge _ _)) by lia.
    rewrite (proj2 (Z.ltb_lt _ _) Hlt). done.
  - intros [H1 H2]. rewrite (proj2 (Z.ltb_ge _ _) H1), (proj2 (Z.ltb_ge _ _) H2). done.
Qed.

Lemma day_number_within z t :
  z * DateFns.MILLISECONDS_IN_DAY ≤ t < (z + 1) * DateFns.MILLISECONDS_IN_DAY →
  JsDate.day_number t = z.
Proof.
  unfold JsDate.day_number, DateFns.MILLISECONDS_IN_DAY. intros Ht.
  symmetry. apply (Z.div_unique t 86400000 z (t - z * 86400000)); lia.
Qed.

Lemma lastOfMonth_days n :
  lastOfMonth n
  = (DateFns.days_from_civil ((n + 1) `div` 12) ((n + 1) `mod` 12 + 1) 1 - 1)
    * DateFns.MILLISECONDS_IN_DAY.
Proof. unfold lastOfMonth, firstOfMonth. lia. Qed.

(** A date on the last day of a month has the year and the month of that
    month. *)
Lemma fields_on_last_day n date :
  lastOfMonth n ≤ date < firstOfMonth (n + 1) →
  JsDate.getFullYear date = n `div` 12 ∧ JsDate.getMonth date = n `mod` 12.
Proof.
  intros Hdate.
  destruct (first_before_last n) as [_ Hnext].
  destruct (fields_of_last n) as [Hye Hme].
  assert (Hday : JsDate.day_number date = JsDate.day_number (lastOfMonth n)).
  { transitivity (DateFns.days_from_civil ((n + 1) `div` 12) ((n + 1) `mod` 12 + 1) 1 - 1).
    - apply day_number_within. pose proof (lastOfMonth_days n) as Hl.
      unfold DateFns.MILLISECONDS_IN_DAY in Hl, Hnext |- *. lia.
    - by rewrite lastOfMonth_days, day_number_of_days. }
  rewrite <- Hye, <- Hme.
  unfold JsDate.getFullYear, JsDate.getMonth. rewrite Hday. split; reflexivity.
Qed.

(** X12. A date on the last day of the month shown, after its first
    instant, counts as after the month: with no action the state moves to
    the month after, in which the date does not lie. *)
Theorem month_change_on_last_day (date : Instant) (st : Calendar.State) (n : Z) :
  window n st →
  plain_year (n `div` 12) →
  lastOfMonth n < date < firstOfMonth (n + 1) →
  let st' := fst (Calendar.handleCalendarMonthChange date None st) in
  12 * JsDate.getFullYear date + JsDate.getMonth date = n ∧
  window (n + 1) st' ∧
  date < Calendar.startOfCurrentMonth st'.
Proof.
  intros Hwin Hplain [Hlo Hhi] st'.
  destruct (fields_on_last_day n date) as [Hy Hm]; [lia|].
  destruct (month_change_without_action date st n Hwin Hplain) as (_ & Hafter & _).
  destruct (Hafter Hlo) as [Hwin' _].
  rewrite Hm in Hwin'.
  replace (12 * (n `div` 12) + Z.max (n `mod` 12) (n `mod` 12 + 1)) with (n + 1)
    in Hwin' by (pose proof (month_number n); lia).
  split; [rewrite Hy, Hm; apply month_number|].
  split; [exact Hwin'|].
  destruct Hwin' as [Hs' _]. subst st'. rewrite Hs'. exact Hhi.
Qed.

End MonthMoves.

Section MonthRuns.

(** X13. After January of the year 100, NEXT and then PREV, or PREV and
    then NEXT, bring the state back to what it was. *)
Theorem month_change_next_previous_inverse
    (date date' : Instant) (st : Calendar.State) (n : Z) :
  window n st →
  1201 ≤ n →
  let step a d s := fst (Calendar.handleCalendarMonthChange d (Some a) s) in
  step navigate.PREVIOUS date' (step navigate.NEXT date st) = st ∧
  step navigate.NEXT date' (step navigate.PREVIOUS date st) = st.
Proof.
  intros Hwin Hn step. subst step. cbv beta.
  assert (Hplain : ∀ k, n - 1 ≤ k ≤ n + 1 → plain_year (k `div` 12)).
  { intros k Hk. right.
    assert (100 ≤ k `div` 12) by (apply Z.div_le_lower_bound; lia). lia. }
  destruct (month_change_next_previous date st n Hwin) as [Hnext Hprev];
    [apply Hplain; lia|].
  cbv zeta in Hnext, Hprev.
  destruct Hwin as [Hs He].
  split.
  - destruct (month_change_next_previous date'
                (fst (Calendar.handleCalendarMonthChange date (Some navigate.NEXT) st))
                (n + 1)) as [_ Hback].
    + by rewrite Hnext.
    + apply Hplain. lia.
    + cbv zeta in Hback. rewrite Hback, Hnext. cbn.
      replace (n + 1 - 1) with n by lia. rewrite <- Hs, <- He. by destruct st.
  - destruct (month_change_next_previous date'
                (fst (Calendar.handleCalendarMonthChange date (Some navigate.PREVIOUS) st))
                (n - 1)) as [Hback _].
    + by rewrite Hprev.
    + apply Hplain. lia.
    + cbv zeta in Hback. rewrite Hback, Hprev. cbn.
      replace (n - 1 + 1) with n by lia. rewrite <- Hs, <- He. by destruct st.
Qed.

(** X14. The state built by the constructor shows the whole month of the
    current date, when the year of that date is not from 0 to 99. *)
Theorem constructor_shows_current_month (now : Instant) :
  plain_year (JsDate.getFullYear now) →
  let n := 12 * JsDate.getFullYear now + JsDate.getMonth now in
  window n (Calendar.constructor now) ∧
  firstOfMonth n ≤ now < firstOfMonth (n + 1).
Proof.
  intros Hplain n. subst n.
  unfold JsDate.getFullYear, JsDate.getMonth in *.
  destruct (civil_of_day (JsDate.day_number now)) as (y & m & d & Hcivil & Hm & Hlo & Hhi).
  rewrite Hcivil in *. simpl in *.
  split.
  - split; simpl.
    + unfold JsDate.getFullYear, JsDate.getMonth. rewrite Hcivil. simpl.
      by apply make_first.
    + unfold JsDate.getFullYear, JsDate.getMonth. rewrite Hcivil. simpl.
      by apply make_last.
  - unfold firstOfMonth.
    replace ((12 * y + (m - 1)) `div` 12) with y
      by (apply (Z.div_unique _ 12 y (m - 1)); lia).
    replace ((12 * y + (m - 1)) `mod` 12) with (m - 1)
      by (apply (Z.mod_unique _ 12 y (m - 1)); lia).
    replace (12 * y + (m - 1) + 1) with (12 * y + m) by lia.
    replace (m - 1 + 1) with m by lia.
    unfold JsDate.day_number, DateFns.MILLISECONDS_IN_DAY in *.
    pose proof (Z.div_mod now 86400000 ltac:(lia)).
    pose proof (Z.mod_pos_bound now 86400000 ltac:(lia)).
    lia.
Qed.

(** X15. Over a run of month changes, whatever their dates and actions, the
    state goes on showing a whole month, as long as the run stays in the
    years from 100 on: each change goes back by one month at most. *)
Theorem month_changes_keep_whole_month
    (steps : list (Instant * option string)) (st : Calendar.State) (n : Z) :
  window n st →
  1200 + Z.of_nat (length steps) ≤ n →
  ∃ n', window n' (monthChanges steps st) ∧ n - Z.of_nat (length steps) ≤ n'.
Proof.
  unfold monthChanges. revert st n.
  induction steps as [|[date action] steps IH]; intros st n Hwin Hn.
  - exists n. simpl. split; [done|lia].
  - cbn [foldl length] in *. cbn [fst snd].
    assert (Hplain : plain_year (n `div` 12)).
    { right. assert (100 ≤ n `div` 12) by (apply Z.div_le_lower_bound; lia). lia. }
    assert (Hstep : ∃ n1, window n1 (fst (Calendar.handleCalendarMonthChange date action st))
                          ∧ n - 1 ≤ n1).
    { destruct action as [a|].
      - destruct (decide (a = navigate.NEXT)) as [->|Hnext].
        { exists (n + 1). split; [|lia].
          destruct (month_change_next_previous date st n Hwin Hplain) as [-> _]. done. }
        destruct (decide (a = navigate.PREVIOUS)) as [->|Hprev].
        { exists (n - 1). split; [|lia].
          destruct (month_change_next_previous date st n Hwin Hplain) as [_ ->]. done. }
        exists n. rewrite month_change_other_action by done. split; [done|lia].
      - rewrite (month_change_null _ _ _ Hwin Hplain).
        destruct (date <? firstOfMonth n).
        { exists (n - 1). split; [done|lia]. }
        destruct (lastOfMonth n <? date).
        { eexists. split; [done|]. pose proof (month_number n). lia. }
        exists n. split; [done|lia]. }
    destruct Hstep as (n1 & Hwin1 & Hn1).
    destruct (IH _ n1 Hwin1) as (n' & Hwin' & Hn'); [lia|].
    exists n'. split; [done|lia].
Qed.

End MonthRuns.

(** ** Navigating, selecting, scrolling *)

Section CalendarHandlers.

Variable Value : Type.
Variable is_true : Value → bool.
Variable Obj : Type.
Variable empty_object : Obj.
Variable Object_keys : Obj → list string.
Variable read : Obj → string → Value.
Variable write : string → Value → Obj → Obj.
Variable transform : list string → (Obj → string → Obj * Value) → Obj → Obj.
Variable mapValues : (Value → string → Value) → Obj → Obj.
Variable VIEWS : Obj.
Variable moveDate : Value → option string → Instant → Instant.

#[local] Abbreviation getView :=
  (Calendar.getView Value is_true Obj empty_object read write transform mapValues VIEWS).
#[local] Abbreviation handleDrillDown :=
  (Calendar.handleDrillDown Value is_true Obj empty_object Object_keys read write
     transform mapValues VIEWS moveDate).

(** X17. Drilling down navigates once, with the action DATE and the date
    that [moveDate] returns for the given one, after at most one [onView],
    which is asked only for a view that is valid and is not the current
    one. Its action is neither NEXT nor PREV nor null, so the month shown by
    the state stays where it is, wherever the date lies. *)
Theorem drill_down_navigates_once
    (props : Calendar.Props Obj) (date : Instant) (view' : option string)
    (st : Calendar.State) :
  let moved := moveDate (getView props) (Some navigate.DATE) date in
  ∃ changed,
    handleDrillDown props date view' st
    = (st, changed
           ++ (if Calendar.showTwoMonths Obj props
               then [Calendar.setState None] else [])
           ++ [Calendar.onNavigate moved (Calendar.view Obj props)
                 (Some navigate.DATE)]) ∧
    (changed = [] ∨
     ∃ v, changed = [Calendar.onView v] ∧ view' = Some v ∧
          v ≠ Calendar.view Obj props ∧
          v ∈ Calendar.viewNames Obj Object_keys (Calendar.views Obj props)).
Proof.
  intros moved. unfold Calendar.handleDrillDown, Calendar.handleNavigate. simpl.
  fold moved. eexists. split.
  - destruct (Calendar.showTwoMonths Obj props).
    + rewrite month_change_other_action by done. reflexivity.
    + reflexivity.
  - destruct view' as [v|]; [|by left].
    case_bool_decide; [by left|].
    unfold Calendar.handleViewChange, Calendar.isValidView.
    case_bool_decide as Hcur; simpl; [by left|].
    case_bool_decide as Hvalid; [|by left].
    right. by exists v.
Qed.

(** X18. A click with the shift key on an event whose id is that of no
    selected event selects it after the others, and a second click with the
    shift key on it gives back the list of before. *)
Theorem shift_click_twice_restores_selection
    (eventInfo : Event) (args args' : list Calendar.ClickEvent) (st : Calendar.State) :
  Calendar.shiftKey <$> head args = Some true →
  Calendar.shiftKey <$> head args' = Some true →
  Forall (λ evt, ev_id evt ≠ ev_id eventInfo) (Calendar.selectedList st) →
  ∃ st1 st2 effects1 effects2,
    Calendar.handleSelectEvent eventInfo args st = Some (st1, effects1) ∧
    Calendar.selectedList st1 = Calendar.selectedList st ++ [eventInfo] ∧
    Calendar.handleSelectEvent eventInfo args' st1 = Some (st2, effects2) ∧
    Calendar.selectedList st2 = Calendar.selectedList st.
Proof.
  intros Hshift Hshift' Hfresh. unfold Calendar.handleSelectEvent.
  destruct (head args) as [event|]; [|done].
  destruct (head args') as [event'|]; [|done].
  simpl in *. injection Hshift as ->. injection Hshift' as ->.
  assert (Hnone : list_find (λ evt, ev_id evt = ev_id eventInfo)
                    (Calendar.selectedList st) = None)
    by (by apply list_find_None).
  rewrite Hnone.
  assert (Hlast : list_find (λ evt, ev_id evt = ev_id eventInfo)
                    (Calendar.selectedList st ++ [eventInfo])
                  = Some (length (Calendar.selectedList st), eventInfo)).
  { apply list_find_Some. split; [|split; [done|]].
    - by rewrite lookup_app_r, Nat.sub_diag.
    - intros j y Hj Hlt. rewrite lookup_app_l in Hj by done.
      rewrite Forall_forall in Hfresh. apply Hfresh.
      by eapply list_elem_of_lookup_2. }
  eexists _, _, _, _. split; [reflexivity|]. split; [reflexivity|].
  simpl. rewrite Hlast. split; [reflexivity|]. simpl.
  unfold Calendar.splice.
  rewrite take_app_length.
  rewrite drop_ge by (rewrite length_app; simpl; lia).
  apply app_nil_r.
Qed.

(** X19. A click with the shift key on an event that is selected, the first
    with its id being the [i]-th of the list, removes from the list the
    events at the indices from [i] to [2 * i]: that one and the [i] events
    after it, as far as there are any. *)
Theorem shift_click_on_selected_removes_run
    (eventInfo : Event) (args : list Calendar.ClickEvent) (st : Calendar.State)
    (i : nat) (evt : Event) :
  Calendar.shiftKey <$> head args = Some true →
  list_find (λ evt, ev_id evt = ev_id eventInfo) (Calendar.selectedList st)
  = Some (i, evt) →
  ∃ st' effects,
    Calendar.handleSelectEvent eventInfo args st = Some (st', effects) ∧
    (∀ j, (j < i)%nat →
          Calendar.selectedList st' !! j = Calendar.selectedList st !! j) ∧
    (∀ j, (i ≤ j)%nat →
          Calendar.selectedList st' !! j = Calendar.selectedList st !! (j + i + 1)%nat) ∧
    length (Calendar.selectedList st')
    = (length (Calendar.selectedList st) - (i + 1)
       `min` (length (Calendar.selectedList st) - i))%nat.
Proof.
  intros Hshift Hfind. unfold Calendar.handleSelectEvent.
  destruct (head args) as [event|]; [|done].
  simpl in *. injection Hshift as ->. rewrite Hfind.
  apply list_find_Some in Hfind as (Hi & _).
  apply lookup_lt_Some in Hi.
  eexists _, _. split; [reflexivity|]. simpl. unfold Calendar.splice.
  split; [|split].
  - intros j Hj. rewrite lookup_app_l by (rewrite length_take; lia).
    by rewrite lookup_take_lt.
  - intros j Hj. rewrite lookup_app_r by (rewrite length_take; lia).
    rewrite length_take, lookup_drop. f_equal. lia.
  - rewrite length_app, length_take, length_drop. lia.
Qed.

Lemma Qlt_bool_iff a b : Qlt_bool a b = true ↔ (a < b)%Q.
Proof.
  unfold Qlt_bool. rewrite negb_true_iff. split.
  - intros Hle. apply Qnot_le_lt. intros H%Qle_bool_iff. congruence.
  - intros Hlt. destruct (Qle_bool b a) eqn:Hle; [|done].
    apply Qle_bool_iff in Hle. exfalso. by eapply Qlt_not_le.
Qed.

Lemma Qeq_two_le a b : (a == b)%Q ↔ Qle_bool a b = true ∧ Qle_bool b a = true.
Proof.
  rewrite !Qle_bool_iff. split.
  - intros Heq. rewrite Heq. split; apply Qle_refl.
  - intros [? ?]. by apply Qle_antisym.
Qed.

(** X20. After a scroll the header of the second month is switched on
    exactly when the top of that month is not 0 and is below 130, or is at
    130 with the header on before; a second scroll to the same place leaves
    the state as it is, and calls [setState] only at 0. *)
Theorem scroll_switches_header (top : Q) (st : Calendar.State) :
  let st' := fst (Calendar.handleScroll top st) in
  (Calendar.switchMonthHeader st' = true ↔
   ¬ (top == 0)%Q ∧
   ((top < 130)%Q ∨ ((top == 130)%Q ∧ Calendar.switchMonthHeader st = true))) ∧
  Calendar.handleScroll top st'
  = (st', if Qeq_bool top 0 then [Calendar.setState None] else []).
Proof.
  intros st'. subst st'.
  rewrite <- Qeq_bool_iff, <- Qlt_bool_iff, Qeq_two_le.
  assert (Htotal : Qle_bool 130 top = true ∨ Qle_bool top 130 = true).
  { rewrite !Qle_bool_iff. destruct (Qlt_le_dec top 130) as [?%Qlt_le_weak|?]; tauto. }
  unfold Calendar.handleScroll, Qlt_bool. destruct st as [sel on l s e a]. simpl.
  destruct (Qeq_bool top 0), (Qle_bool 130 top), (Qle_bool top 130), on; simpl;
    try (by destruct Htotal);
    (split; [intuition congruence | reflexivity]).
Qed.

End CalendarHandlers.

(** ** The drop target, from hover to drop *)

Section HoverAndDrop.

Variable merge : Instant → Instant → Instant.
Variable diff : Instant → Instant → Z.
Variable toString : Instant → string.

Lemma drop_keeps_world sa ea type value monitor w :
  fst (BackgroundWrapper.drop merge diff sa ea type value monitor w) = w ∧
  fst (BackgroundWrapper2.drop merge diff sa ea type value monitor w) = w.
Proof.
  unfold BackgroundWrapper.drop, BackgroundWrapper2.drop.
  split; repeat case_bool_decide; done.
Qed.

(** X21. No drop empties [window.RBC_RESIZE_VALUE]: after a hover and a
    drop, the first hover of the next gesture over a value with the same
    string, whatever is dragged and wherever, invokes nothing. Both
    revisions of the file. *)
Theorem hover_after_drop_same_string_is_silent
    (sa ea : Event → Instant) (type1 type2 type3 : string)
    (value1 value2 value3 : Instant) (monitor1 monitor2 monitor3 : Monitor)
    (w : World) :
  toString value1 = toString value3 →
  (let w1 := fst (BackgroundWrapper.hover toString sa ea type1 value1 monitor1 w) in
   let w2 := fst (BackgroundWrapper.drop merge diff sa ea type2 value2 monitor2 w1) in
   w2 = w1 ∧
   BackgroundWrapper.hover toString sa ea type3 value3 monitor3 w2 = (w2, [])) ∧
  (let w1 := fst (BackgroundWrapper2.hover toString sa ea
                    type1 value1 monitor1 w) in
   let w2 := fst (BackgroundWrapper2.drop merge diff sa ea type2 value2 monitor2 w1) in
   w2 = w1 ∧
   BackgroundWrapper2.hover toString sa ea type3 value3 monitor3 w2
   = (w2, [])).
Proof.
  intros Hstr. split; intros w1 w2; subst w2.
  - rewrite (proj1 (drop_keeps_world _ _ _ _ _ _)). split; [done|].
    unfold BackgroundWrapper.hover at 1.
    rewrite (sameValue_string toString value1 value3) by done.
    subst w1. by rewrite hover_leaves_same_value.
  - rewrite (proj2 (drop_keeps_world _ _ _ _ _ _)). split; [done|].
    unfold BackgroundWrapper2.hover at 1.
    rewrite (sameValue2_string toString value1 value3) by done.
    subst w1. by rewrite hover2_leaves_same_value.
Qed.

(** X22. In [unnamed/part_001] the hover of a moved event previews
    nothing. For an item of type ['event'] no call of [hover] invokes a
    callback; when the value is not throttled and the item is not marked
    as an outside event, the call records the value and then throws the
    [ReferenceError] of [onEventDrop], where the earlier revision records
    the value and returns. The drop on the same cell calls [onEventDrop]
    once, with phase ['drop'], when the data are not marked either. *)
Theorem move_hover_throws_and_previews_nothing
    (sa ea : Event → Instant) (type : string) (value : Instant)
    (monitor : Monitor) (w : World) :
  getItemType monitor = ItemTypes.EVENT →
  let event := item_data (getItem monitor) in
  let times := BackgroundWrapper2.getEventTimes merge diff (sa event) (ea event)
                 value type in
  let hovered := BackgroundWrapper2.hover toString sa ea type value monitor w in
  let earlier := BackgroundWrapper.hover toString sa ea type value monitor w in
  (∀ effect, effect ∈ snd hovered → effect = ReferenceError "onEventDrop") ∧
  fst earlier = fst hovered ∧ snd earlier = [] ∧
  (BackgroundWrapper2.sameValue toString value w = false →
   item_type (getItem monitor) ≠ Some "outsideEvent" →
   hovered = (set_RBC_RESIZE_VALUE (Some value) w, [ReferenceError "onEventDrop"]) ∧
   (ev_type event ≠ Some "outsideEvent" →
    snd (BackgroundWrapper2.drop merge diff sa ea type value monitor w)
    = [onEventDrop (Some "drop") event (times_start times) (times_end times)])).
Proof.
  intros Htype event times hovered earlier. subst hovered earlier.
  unfold BackgroundWrapper2.hover, BackgroundWrapper.hover, BackgroundWrapper2.drop.
  change (BackgroundWrapper.sameValue toString value w)
    with (BackgroundWrapper2.sameValue toString value w).
  rewrite Htype.
  rewrite (bool_decide_eq_false_2 (ItemTypes.EVENT = ItemTypes.RESIZE)) by done.
  rewrite (bool_decide_eq_true_2 (ItemTypes.EVENT = ItemTypes.EVENT)) by done.
  destruct (BackgroundWrapper2.sameValue toString value w).
  - split; [by intros ? ?%elem_of_nil|]. by repeat split.
  - cbn [andb]. case_bool_decide as Hitem; cbn [negb fst snd].
    + split; [by intros ? ?%elem_of_nil|]. by repeat split.
    + split; [by intros ? ->%list_elem_of_singleton|].
      split; [done|]. split; [done|]. intros _ _. split; [done|].
      intros Hdata. by rewrite (bool_decide_eq_false_2 _ Hdata).
Qed.

(** X23. In [unnamed/part_001] the hover reads the mark of an outside event
    from the item and the drop from its data. When only the item has it,
    the hover invokes nothing and returns, and the drop commits a move;
    when only the data has it, the hover throws the [ReferenceError] of
    [onEventDrop] and the drop reports an outside drop, with the value of
    the cell as the start. *)
Theorem outside_mark_read_in_two_places
    (sa ea : Event → Instant) (type : string) (value : Instant)
    (monitor : Monitor) (w : World) :
  getItemType monitor = ItemTypes.EVENT →
  BackgroundWrapper2.sameValue toString value w = false →
  let event := item_data (getItem monitor) in
  let times := BackgroundWrapper2.getEventTimes merge diff (sa event) (ea event)
                 value type in
  let hovered := snd (BackgroundWrapper2.hover toString sa ea
                        type value monitor w) in
  let dropped := snd (BackgroundWrapper2.drop merge diff sa ea type value monitor w) in
  (item_type (getItem monitor) = Some "outsideEvent" →
   ev_type event ≠ Some "outsideEvent" →
   hovered = [] ∧
   dropped = [onEventDrop (Some "drop") event (times_start times) (times_end times)]) ∧
  (item_type (getItem monitor) ≠ Some "outsideEvent" →
   ev_type event = Some "outsideEvent" →
   hovered = [ReferenceError "onEventDrop"] ∧
   dropped = [onOutsideEventDrop event value]).
Proof.
  intros Htype Hfresh event times hovered dropped. subst hovered dropped.
  unfold BackgroundWrapper2.hover, BackgroundWrapper2.drop.
  rewrite Hfresh, Htype.
  rewrite (bool_decide_eq_false_2 (ItemTypes.EVENT = ItemTypes.RESIZE)) by done.
  rewrite (bool_decide_eq_true_2 (ItemTypes.EVENT = ItemTypes.EVENT)) by done.
  split; intros Hitem Hdata.
  - rewrite (bool_decide_eq_true_2 _ Hitem), (bool_decide_eq_false_2 _ Hdata). done.
  - rewrite (bool_decide_eq_false_2 _ Hitem), (bool_decide_eq_true_2 _ Hdata). done.
Qed.

Lemma day_and_time (t : Instant) : t = startOfDay t + timeOfDay t.
Proof.
  unfold startOfDay, timeOfDay, DateFns.MILLISECONDS_IN_DAY.
  pose proof (Z.div_mod t 86400000). lia.
Qed.

(** X24. A drop on a day cell moves the event by whole days: start and end
    both move by the number of days from the day of the old start to the
    day of the cell, and a drop on the cell of its own day leaves them as
    they are. This for a [merge] that puts the time of day of the start on
    the day of the cell, and when [diff] returns the end less the start. *)
Theorem day_cell_drop_moves_by_whole_days (start end_ dropDate : Instant) :
  (∀ date time, startOfDay (merge date time) = startOfDay date ∧
                timeOfDay (merge date time) = timeOfDay time) →
  diff start end_ = end_ - start →
  let next := BackgroundWrapper.getEventTimes merge diff start end_ dropDate
                "dateCellWrapper" in
  let days := JsDate.day_number dropDate - JsDate.day_number start in
  times_start next = start + days * DateFns.MILLISECONDS_IN_DAY ∧
  times_end next = end_ + days * DateFns.MILLISECONDS_IN_DAY ∧
  (days = 0 → next = mkEventTimes start end_).
Proof.
  intros Hmerge Hdiff next days.
  assert (Hstart : times_start next = start + days * DateFns.MILLISECONDS_IN_DAY).
  { subst next days. unfold BackgroundWrapper.getEventTimes.
    rewrite bool_decide_eq_true_2 by done. cbn [times_start].
    destruct (Hmerge dropDate start) as [Hday Htime].
    rewrite (day_and_time (merge dropDate start)), Hday, Htime.
    rewrite (day_and_time start) at 2.
    unfold startOfDay, JsDate.day_number. lia. }
  assert (Hend : times_end next = times_start next + (end_ - start)).
  { subst next. unfold BackgroundWrapper.getEventTimes, DateFns.addMilliseconds.
    cbn [times_start times_end]. by rewrite Hdiff. }
  split; [done|]. split; [lia|].
  intros Hzero. rewrite Hzero in Hstart.
  destruct next as [s e]. simpl in *. f_equal; lia.
Qed.

(** X25. On a time slot a move is undone by the move back: an event moved
    to an instant and then moved to its old start has its old start and
    end again. This when [diff] returns the end less the start for a start
    that is not after the end. *)
Theorem time_slot_move_and_back (start end_ target : Instant) (type : string) :
  type ≠ "dateCellWrapper" →
  (∀ a b, a ≤ b → diff a b = b - a) →
  start ≤ end_ →
  let moved := BackgroundWrapper.getEventTimes merge diff start end_ target type in
  times_start moved = target ∧
  BackgroundWrapper.getEventTimes merge diff (times_start moved) (times_end moved)
    start type
  = mkEventTimes start end_.
Proof.
  intros Htype Hdiff Hle moved. subst moved.
  unfold BackgroundWrapper.getEventTimes, DateFns.addMilliseconds.
  rewrite (bool_decide_eq_false_2 _ Htype). cbn [times_start times_end].
  split; [done|].
  rewrite (Hdiff start end_ Hle).
  rewrite Hdiff by lia. f_equal. lia.
Qed.

End HoverAndDrop.

(** ** The properties above on the sample data *)

(** The segment at level 1, column 5 is hovered twice during the drag of
    the segment at level 0, column 3. *)
Lemma hover_again_same_world_witness :
  DateContentRowWrapper.handleSegmentHover one_per_level counter_cuid insertion_sort
    [] hover15 (Some evC) move_item dragging = Some (hovering15, [setState]) ∧
  DateContentRowWrapper.handleSegmentHover one_per_level counter_cuid insertion_sort
    [] hover15 (Some evC) move_item hovering15 = Some (hovering15, [setState]).
Proof.
  split; [reflexivity|].
  apply (hover_again_same_world one_per_level counter_cuid insertion_sort
           [] [] hover15 (Some evC) move_item dragging hovering15
           (mkPosition (Some 0%nat) (Some 3) (Some 1)) 0%nat 1%nat
           [sample_segment evA 3 0; sample_segment evX 5 0]
           [sample_segment evB 3 1; sample_segment evC 5 1]
           0%nat 0%nat (sample_segment evA 3 0) (sample_segment evB 3 1)).
  - right. discriminate.
  - reflexivity.
  - reflexivity.
  - reflexivity.
  - reflexivity.
  - reflexivity.
  - reflexivity.
  - reflexivity.
  - reflexivity.
  - reflexivity.
Defined.

(** A hover before any drag was told to the row. *)
Lemma hover_throws_iff_witness :
  DateContentRowWrapper.handleSegmentHover one_per_level counter_cuid insertion_sort
    [] hover13 (Some evB) move_item mounted = None.
Proof.
  apply (hover_throws_iff one_per_level counter_cuid insertion_sort
           [] hover13 (Some evB) move_item mounted).
  - right. discriminate.
  - left. reflexivity.
Defined.

(** The segment at level 0, column 3 hovers level 1, which holds nothing in
    column 3, and is dropped. *)
Lemma hover_empty_column_loses_segment_witness :
  ∃ w1 w2,
    DateContentRowWrapper.handleSegmentHover one_per_level counter_cuid insertion_sort
      [] hover15 (Some evC) move_item dragging_sparse = Some (w1, [setState]) ∧
    st_levels (state w1) !! 0%nat
    = Some [with_level (Some 0%nat) no_props; sample_segment evX 5 0] ∧
    st_levels (state w1) !! 1%nat = Some [sample_segment evC 5 1] ∧
    RBC_DRAG_POS w1 = Some (mkPosition (Some 1%nat) (Some 3) (Some 1)) ∧
    DateContentRowWrapper.handleSegmentDrop true hover15 w1 = Some (w2, [setState]) ∧
    RBC_DRAG_POS w2 = RBC_DRAG_POS w1.
Proof.
  apply (hover_empty_column_loses_segment one_per_level counter_cuid insertion_sort
           [] hover15 hover15 evC move_item dragging_sparse
           (mkPosition (Some 0%nat) (Some 3) (Some 1)) 0%nat 1%nat
           [sample_segment evA 3 0; sample_segment evX 5 0] [sample_segment evC 5 1]
           0%nat (sample_segment evA 3 0)).
  - right. discriminate.
  - reflexivity.
  - reflexivity.
  - reflexivity.
  - reflexivity.
  - reflexivity.
  - reflexivity.
  - reflexivity.
Defined.

Lemma drop_on_stale_position_witness :
  let w' := set_state (mkState None None None false sparse_levels) stale in
  DateContentRowWrapper.handleSegmentDrop true hover15 stale = Some (w', [setState]) ∧
  RBC_DRAG_POS w' = Some (mkPosition (Some 1%nat) (Some 3) (Some 1)) ∧
  DateContentRowWrapper.handleSegmentDrop true hover13 w' = Some (w', []).
Proof.
  apply (drop_on_stale_position true hover15 hover13 stale evC
           (mkPosition (Some 1%nat) (Some 3) (Some 1)) 1%nat [sample_segment evC 5 1]);
    reflexivity.
Defined.

(** An outside item without [position], on its first hover. *)
Lemma first_outside_hover_throws_iff_witness :
  DateContentRowWrapper.handleSegmentHover one_per_level counter_cuid insertion_sort
    [evA; evB] hover15 (Some evB) (mkItem (Some "outsideEvent") template None) mounted
  = None.
Proof.
  apply (first_outside_hover_throws_iff one_per_level counter_cuid insertion_sort
           [evA; evB] hover15 (Some evB) (mkItem (Some "outsideEvent") template None)
           mounted).
  - reflexivity.
  - reflexivity.
  - left. reflexivity.
Defined.

(** The first hover of an outside drag over a row that was told of no
    drag. *)
Lemma first_outside_hover_records_no_hover_witness :
  ∃ w1,
    DateContentRowWrapper.handleSegmentHover one_per_level counter_cuid insertion_sort
      [evA; evB] hover15 (Some evB) outside_item mounted = Some (w1, [setState]) ∧
    st_hoverData (state w1) = None ∧
    DateContentRowWrapper.handleSegmentDrop true hover15 w1 = Some (w1, []) ∧
    DateContentRowWrapper.handleSegmentHover one_per_level counter_cuid insertion_sort
      [evA; evB] hover15 (Some evB) outside_item w1 = None.
Proof.
  eexists. split; [reflexivity|].
  destruct (first_outside_hover_records_no_hover one_per_level counter_cuid
              insertion_sort [evA; evB] hover15 (Some evB) outside_item mounted _ _
              eq_refl eq_refl eq_refl) as (_ & _ & Hdata & Hdrop & Hhover).
  split; [exact Hdata|]. split.
  - apply Hdrop. reflexivity.
  - apply Hhover. reflexivity.
Defined.

Lemma march2024_window : window 24290 march2024.
Proof. split; reflexivity. Qed.

Lemma month_change_next_previous_witness :
  window 24290 march2024 ∧ plain_year (24290 `div` 12) ∧
  window 24291 (fst (Calendar.handleCalendarMonthChange 0 (Some navigate.NEXT) march2024)) ∧
  window 24289
    (fst (Calendar.handleCalendarMonthChange 0 (Some navigate.PREVIOUS) march2024)).
Proof.
  split; [exact march2024_window|]. split; [right; reflexivity|].
  destruct (month_change_next_previous 0 march2024 24290 march2024_window)
    as [Hnext Hprev]; [right; reflexivity|].
  cbv zeta in Hnext, Hprev. rewrite Hnext, Hprev. split; split; reflexivity.
Defined.

(** A date in June 2025 while March 2024 is shown: the state moves to June
    2024. *)
Lemma month_change_without_action_witness :
  lastOfMonth 24290 < DateFns.utc 2025 6 10 ∧
  window 24293 (fst (Calendar.handleCalendarMonthChange (DateFns.utc 2025 6 10) None
                       march2024)).
Proof.
  split; [reflexivity|].
  destruct (month_change_without_action (DateFns.utc 2025 6 10) march2024 24290
              march2024_window) as (_ & Hafter & _); [right; reflexivity|].
  destruct (Hafter eq_refl) as [Hwin _]. exact Hwin.
Defined.

(** Noon of 2024-03-31. *)
Lemma month_change_on_last_day_witness :
  let date := DateFns.utc 2024 3 31 + 43200000 in
  12 * JsDate.getFullYear date + JsDate.getMonth date = 24290 ∧
  window 24291 (fst (Calendar.handleCalendarMonthChange date None march2024)).
Proof.
  destruct (month_change_on_last_day (DateFns.utc 2024 3 31 + 43200000) march2024 24290
              march2024_window) as (Hmonth & Hwin & _).
  - right. reflexivity.
  - split; reflexivity.
  - split; [exact Hmonth | exact Hwin].
Defined.

Lemma month_change_next_previous_inverse_witness :
  fst (Calendar.handleCalendarMonthChange 0 (Some navigate.PREVIOUS)
         (fst (Calendar.handleCalendarMonthChange 0 (Some navigate.NEXT) march2024)))
  = march2024.
Proof.
  destruct (month_change_next_previous_inverse 0 0 march2024 24290 march2024_window)
    as [Hback _]; [done|].
  exact Hback.
Defined.

Lemma constructor_shows_current_month_witness :
  window 24290 (Calendar.constructor (DateFns.utc 2024 3 15)) ∧
  firstOfMonth 24290 ≤ DateFns.utc 2024 3 15 < firstOfMonth 24291.
Proof.
  apply (constructor_shows_current_month (DateFns.utc 2024 3 15)).
  right. reflexivity.
Defined.

Lemma month_changes_keep_whole_month_witness :
  ∃ n', window n'
          (monthChanges [(0, Some navigate.PREVIOUS); (DateFns.utc 2025 6 10, None);
                         (0, Some navigate.DATE)] march2024) ∧
        24290 - 3 ≤ n'.
Proof.
  apply (month_changes_keep_whole_month
           [(0, Some navigate.PREVIOUS); (DateFns.utc 2025 6 10, None);
            (0, Some navigate.DATE)] march2024 24290 march2024_window).
  done.
Defined.

(** The event X, clicked twice with the shift key when A, B and C are
    selected. *)
Lemma shift_click_twice_restores_selection_witness :
  ∃ st1 st2 effects1 effects2,
    Calendar.handleSelectEvent evX shift_click
      (Calendar.mkState None false [evA; evB; evC] 0 0 1) = Some (st1, effects1) ∧
    Calendar.selectedList st1 = [evA; evB; evC] ++ [evX] ∧
    Calendar.handleSelectEvent evX shift_click st1 = Some (st2, effects2) ∧
    Calendar.selectedList st2 = [evA; evB; evC].
Proof.
  apply (shift_click_twice_restores_selection evX shift_click shift_click
           (Calendar.mkState None false [evA; evB; evC] 0 0 1)).
  - reflexivity.
  - reflexivity.
  - repeat constructor; discriminate.
Defined.

(** The event B, second of four selected events, clicked with the shift
    key: C goes with it. *)
Lemma shift_click_on_selected_removes_run_witness :
  ∃ st' effects,
    Calendar.handleSelectEvent evB shift_click selecting = Some (st', effects) ∧
    Calendar.selectedList st' = [evA; evX].
Proof.
  destruct (shift_click_on_selected_removes_run evB shift_click selecting 1%nat evB
              eq_refl eq_refl) as (st' & effects & Hrun & _).
  exists st', effects. split; [exact Hrun|].
  vm_compute in Hrun. injection Hrun as <- _. reflexivity.
Defined.

Lemma hover_after_drop_same_string_is_silent_witness :
  let v := DateFns.utc 2024 3 4 in
  let w1 := fst (BackgroundWrapper2.hover seconds_string
                   ev_start ev_end "dayWrapper" v (mkMonitor "resize" resizeR_item)
                   mounted) in
  let w2 := fst (BackgroundWrapper2.drop helpers_merge dates_diff ev_start ev_end
                   "dayWrapper" v (mkMonitor "resize" resizeR_item) w1) in
  seconds_string v = seconds_string (v + 250) ∧
  BackgroundWrapper2.hover seconds_string ev_start ev_end
    "dateCellWrapper" (v + 250) (mkMonitor "event" move_item) w2 = (w2, []).
Proof.
  split; [reflexivity|].
  destruct (hover_after_drop_same_string_is_silent helpers_merge dates_diff
              seconds_string ev_start ev_end "dayWrapper" "dayWrapper" "dateCellWrapper"
              (DateFns.utc 2024 3 4) (DateFns.utc 2024 3 4) (DateFns.utc 2024 3 4 + 250)
              (mkMonitor "resize" resizeR_item) (mkMonitor "resize" resizeR_item)
              (mkMonitor "event" move_item) mounted eq_refl) as [_ [_ Hsilent]].
  exact Hsilent.
Defined.

(** The event A hovers the cell of 2024-03-05 and is dropped on it. *)
Lemma move_hover_throws_and_previews_nothing_witness :
  let value := DateFns.utc 2024 3 5 in
  let monitor := mkMonitor "event" move_item in
  BackgroundWrapper2.hover seconds_string ev_start ev_end
    "dateCellWrapper" value monitor mounted
  = (set_RBC_RESIZE_VALUE (Some value) mounted, [ReferenceError "onEventDrop"]) ∧
  BackgroundWrapper.hover seconds_string ev_start ev_end
    "dateCellWrapper" value monitor mounted
  = (set_RBC_RESIZE_VALUE (Some value) mounted, []) ∧
  snd (BackgroundWrapper2.drop helpers_merge dates_diff ev_start ev_end
         "dateCellWrapper" value monitor mounted)
  = [onEventDrop (Some "drop") evA (DateFns.utc 2024 3 5) (DateFns.utc 2024 3 6)].
Proof.
  destruct (move_hover_throws_and_previews_nothing helpers_merge dates_diff
              seconds_string ev_start ev_end "dateCellWrapper" (DateFns.utc 2024 3 5)
              (mkMonitor "event" move_item) mounted eq_refl)
    as (_ & _ & _ & Hrun).
  destruct Hrun as [Hhover Hdrop]; [reflexivity | discriminate |].
  split; [exact Hhover|]. split; [reflexivity|].
  apply Hdrop. discriminate.
Defined.

Lemma outside_mark_read_in_two_places_witness :
  let value := DateFns.utc 2024 3 5 in
  let monitor := mkMonitor "event" marked_move_item in
  snd (BackgroundWrapper2.hover seconds_string ev_start ev_end
         "dayWrapper" value monitor mounted)
  = [ReferenceError "onEventDrop"] ∧
  snd (BackgroundWrapper2.drop helpers_merge dates_diff ev_start ev_end
         "dayWrapper" value monitor mounted)
  = [onOutsideEventDrop template value].
Proof.
  destruct (outside_mark_read_in_two_places helpers_merge dates_diff seconds_string
              ev_start ev_end "dayWrapper" (DateFns.utc 2024 3 5)
              (mkMonitor "event" marked_move_item) mounted eq_refl eq_refl)
    as [_ Hdata].
  apply Hdata; [discriminate | reflexivity].
Defined.

(** The event from 09:00 to 10:00 on 2024-03-01, dropped on the cell of
    2024-03-05. *)
Lemma day_cell_drop_moves_by_whole_days_witness :
  let start := DateFns.utc 2024 3 1 + 32400000 in
  let next := BackgroundWrapper.getEventTimes helpers_merge dates_diff
                start (start + 3600000) (DateFns.utc 2024 3 5) "dateCellWrapper" in
  times_start next = start + 4 * DateFns.MILLISECONDS_IN_DAY ∧
  times_end next = start + 3600000 + 4 * DateFns.MILLISECONDS_IN_DAY.
Proof.
  destruct (day_cell_drop_moves_by_whole_days helpers_merge dates_diff
              (DateFns.utc 2024 3 1 + 32400000) (DateFns.utc 2024 3 1 + 32400000 + 3600000)
              (DateFns.utc 2024 3 5)
              (λ date time, conj (helpers_merge_day date time)
                                 (helpers_merge_time date time))
              eq_refl) as (Hstart & Hend & _).
  split; [exact Hstart | exact Hend].
Defined.

Lemma time_slot_move_and_back_witness :
  let start := DateFns.utc 2024 3 1 + 32400000 in
  let moved := BackgroundWrapper.getEventTimes helpers_merge dates_diff
                 start (start + 3600000) (DateFns.utc 2024 3 5) "dayWrapper" in
  times_start moved = DateFns.utc 2024 3 5 ∧
  BackgroundWrapper.getEventTimes helpers_merge dates_diff
    (times_start moved) (times_end moved) start "dayWrapper"
  = mkEventTimes start (start + 3600000).
Proof.
  apply (time_slot_move_and_back helpers_merge dates_diff
           (DateFns.utc 2024 3 1 + 32400000) (DateFns.utc 2024 3 1 + 32400000 + 3600000)
           (DateFns.utc 2024 3 5) "dayWrapper").
  - discriminate.
  - intros a b _. reflexivity.
  - vm_compute. discriminate.
Defined.
